(** * BeHappyAssistant: the HTTP handlers of [src/index.ts] over the tables of
    [src/db/schema.ts], as a shallow embedding.

    The handlers are pure functions of the request, the clock and the stored
    tables; the one outbound call of [POST /entries] is an explicit event of
    a small resumption type.  JavaScript values are modelled as far as the
    handlers inspect them: truthiness, string coercion, property access and
    [Object.entries] on parsed JSON.  Numbers are doubles, read and printed
    as JavaScript does.  Strings are sequences of code units, of which the
    model has those below 256.

    Layout: JavaScript values; the tables and their statements; the runtime
    (requests, responses, [fetch]); the handlers; the notions the properties
    are stated with and a small world to run the handlers in; then the
    properties, one section per part of the system. *)

From Stdlib Require Import ZArith Ascii String.
From stdpp Require Import base option list sorting strings gmap pretty.

Local Open Scope string_scope.
Set Warnings "-register-all".

(** ** Numbers

    A JavaScript number is a double.  JSON text writes a number as a decimal
    literal, which [JSON.parse] reads as the nearest double; [String] prints
    a double with the fewest digits that read back as the same double. *)

Module Number.

(** A number as JSON text writes it: [digits × 10^exp10] with its sign
    ([-0] is a literal of its own). *)
Record Literal : Type := literal {
  negative : bool;
  digits : N;
  exp10 : Z;
}.

(** The literal of an integer. *)
Definition int (n : Z) : Literal := literal (n <? 0)%Z (Z.abs_N n) 0.

(** A double: [NaN], an infinity, or [± m × 2^e]; zero has [m = 0]. *)
Inductive Double : Type :=
  | NaN
  | Infinity (negative : bool)
  | Finite (negative : bool) (m : N) (e : Z).

Local Open Scope Z_scope.

(** The double nearest to the positive rational [num / den], ties to the
    even mantissa: the mantissa, below [2^53], and the exponent, from
    [-1074] on; [None] when it is beyond the largest double. *)
Definition nearest (num den : Z) : option (Z * Z) :=
  let scaled (e : Z) : Z * Z :=
    if 0 <=? e then (num, den * 2 ^ e) else (num * 2 ^ (- e), den) in
  let e0 := Z.max (Z.log2 num - Z.log2 den - 52) (-1074) in
  let e := if (scaled e0).1 / (scaled e0).2 <? 2 ^ 52 then Z.max (e0 - 1) (-1074) else e0 in
  let '(a, b) := scaled e in
  let q := a / b in
  let r := a mod b in
  let m := if b <? 2 * r then q + 1
           else if (2 * r =? b) && Z.odd q then q + 1
           else q in
  let '(m, e) := if m =? 2 ^ 53 then (2 ^ 52, e + 1) else (m, e) in
  if 971 <? e then None else Some (m, e).

Definition round (negative : bool) (num den : Z) : Double :=
  match nearest num den with
  | Some (m, e) => if m =? 0 then Finite negative 0 0 else Finite negative (Z.to_N m) e
  | None => Infinity negative
  end.

(** The value [JSON.parse] gives a literal.  A literal whose exponent alone
    puts it beyond the doubles, or below half the least of them, is settled
    without its power of ten. *)
Definition of_literal (x : Literal) : Double :=
  let d := Z.of_N (digits x) in
  if d =? 0 then Finite (negative x) 0 0
  else if 400 <? exp10 x then Infinity (negative x)
  else if 400 + Z.log2 d <? - exp10 x then Finite (negative x) 0 0
  else if 0 <=? exp10 x then round (negative x) (d * 10 ^ exp10 x) 1
  else round (negative x) d (10 ^ (- exp10 x)).

(** The double of a natural number with a sign, as [parseInt] returns it. *)
Definition of_integer (negative : bool) (n : Z) : Double :=
  of_literal (literal negative (Z.to_N n) 0).

(** The integer a double is, when it is one. *)
Definition integer (x : Double) : option Z :=
  match x with
  | Finite negative m e =>
      let m := Z.of_N m in
      let sign := if negative then -1 else 1 in
      if 0 <=? e then Some (sign * (m * 2 ^ e))
      else if m mod 2 ^ (- e) =? 0 then Some (sign * (m / 2 ^ (- e)))
      else None
  | _ => None
  end.

Definition MAX_SAFE_INTEGER : Z := 2 ^ 53 - 1.

(** A double that is a count: an integer from [0] to [MAX_SAFE_INTEGER]
    (negative zero is none). *)
Definition count (x : Double) : option Z :=
  match x with
  | Finite false _ _ =>
      n ← integer x;
      if n <=? MAX_SAFE_INTEGER then Some n else None
  | _ => None
  end.

Definition is_zero (x : Double) : bool :=
  match x with
  | Finite _ 0%N _ => true
  | _ => false
  end.

Fixpoint strip_zeros (fuel : nat) (s p : Z) : Z * Z :=
  match fuel with
  | O => (s, p)
  | S fuel =>
      if (s mod 10 =? 0) && negb (s =? 0) then strip_zeros fuel (s / 10) (p + 1) else (s, p)
  end.

(** The shortest decimal that reads back as the double [m × 2^e], as
    [(s, p)] for [s × 10^p] with [s] not a multiple of ten: the fewest
    digits for which a decimal lies within half a gap of the double (the
    ends of the interval count when the mantissa is even, as ties go to
    even), and of these the decimal nearest to it. *)
Definition shortest (m e : Z) : Z * Z :=
  let closer := (m =? 2 ^ 52) && (-1074 <? e) in
  (* the double is R/D, the half gaps above and below it Mp/D and Mm/D *)
  let '(R, D, Mp, Mm) :=
    if 0 <=? e
    then (4 * m * 2 ^ e, 4, 2 * 2 ^ e, if closer then 2 ^ e else 2 * 2 ^ e)
    else (4 * m, 4 * 2 ^ (- e), 2, if closer then 1 else 2) in
  let even := Z.even m in
  let below (n : Z) : bool :=
    if 0 <=? n then R <? 10 ^ n * D else R * 10 ^ (- n) <? D in
  (* n is the least power of ten above the double *)
  let est := (Z.log2 R - Z.log2 D) * 30103 / 100000 in
  let n := if below (est - 1) then est - 1
           else if below est then est
           else if below (est + 1) then est + 1
           else est + 2 in
  let try (k : Z) : option (Z * Z) :=
    let p := n - k in
    let '(Rp, Dp, Mpp, Mmp) :=
      if 0 <=? p then (R, D * 10 ^ p, Mp, Mm)
      else (R * 10 ^ (- p), D, Mp * 10 ^ (- p), Mm * 10 ^ (- p)) in
    let lo := Rp / Dp in
    let hi := lo + 1 in
    let inside (s : Z) : bool :=
      let c := s * Dp in
      (if even then Rp - Mmp <=? c else Rp - Mmp <? c)
      && (if even then c <=? Rp + Mpp else c <? Rp + Mpp) in
    match inside lo, inside hi with
    | true, true =>
        let under := Rp - lo * Dp in
        let over := hi * Dp - Rp in
        Some (if under <? over then lo
              else if over <? under then hi
              else if Z.even lo then lo else hi, p)
    | true, false => Some (lo, p)
    | false, true => Some (hi, p)
    | false, false => None
    end in
  match list_find is_Some (try <$> [1;2;3;4;5;6;7;8;9;10;11;12;13;14;15;16;17]) with
  | Some (_, Some (s, p)) => strip_zeros 400 s p
  | _ => (m, 0)
  end.

Definition zeros (n : Z) : string := String.concat "" (replicate (Z.to_nat n) "0").

(** [Number::toString] in base ten: the digits of the shortest decimal,
    written out when the decimal point falls within 21 digits after or 6
    zeros before them, and with an exponent otherwise. *)
Definition toString (x : Double) : string :=
  match x with
  | NaN => "NaN"
  | Infinity negative => if negative then "-Infinity" else "Infinity"
  | Finite _ 0%N _ => "0"
  | Finite negative m e =>
      let '(s, p) := shortest (Z.of_N m) e in
      let ds := pretty s in
      let k := Z.of_nat (String.length ds) in
      let n := k + p in
      let text :=
        if (k <=? n) && (n <=? 21) then ds +:+ zeros (n - k)
        else if (0 <? n) && (n <=? 21)
        then String.substring 0 (Z.to_nat n) ds +:+ "."
             +:+ String.substring (Z.to_nat n) (Z.to_nat (k - n)) ds
        else if (-6 <? n) && (n <=? 0) then "0." +:+ zeros (- n) +:+ ds
        else
          (if k =? 1 then ds
           else String.substring 0 1 ds +:+ "."
                +:+ String.substring 1 (Z.to_nat (k - 1)) ds)
          +:+ "e" +:+ (if 0 <=? n - 1 then "+" else "-") +:+ pretty (Z.abs (n - 1)) in
      if negative then "-" +:+ text else text
  end.

End Number.

(** ** JavaScript values *)

(** A parsed JSON value.  [JNum x] is the double the literal [x] is read as;
    [JObj] lists the own properties of the object in the order
    [Object.entries] enumerates them.  [undefined] is [None] of
    [option JSON]. *)
Inductive JSON : Type :=
  | JNull
  | JBool (b : bool)
  | JNum (x : Number.Literal)
  | JStr (s : string)
  | JArr (items : list JSON)
  | JObj (props : list (string * JSON)).

Module JS.

(** [!!v] of a JSON value: [null], [false], both zeros and the empty string
    are falsy, every array and object is truthy. *)
Definition truthy (v : JSON) : bool :=
  match v with
  | JNull => false
  | JBool b => b
  | JNum x => negb (Number.is_zero (Number.of_literal x))
  | JStr s => negb (String.eqb s "")
  | JArr _ | JObj _ => true
  end.

(** [s || d] on a string that may be [undefined]. *)
Definition or_string (s : option string) (d : string) : string :=
  match s with
  | None => d
  | Some s => if String.eqb s "" then d else s
  end.

(** The own property [k] of an object literal. *)
Fixpoint own_prop (props : list (string * JSON)) (k : string) : option JSON :=
  match props with
  | [] => None
  | (k', v) :: rest => if String.eqb k' k then Some v else own_prop rest k
  end.

Definition has_own (props : list (string * JSON)) (k : string) : bool :=
  bool_decide (is_Some (own_prop props k)).

(** [Array.prototype.join]. *)
Definition join (sep : string) (l : list string) : string := String.concat sep l.

(** [String(v)], which is also what a template literal does with [v].
    [None] is a thrown [TypeError]: an object whose own [toString] property
    is not callable (any JSON value is not) cannot be converted.  Inside an
    array [null] prints as the empty string. *)
Fixpoint ToString (v : JSON) : option string :=
  match v with
  | JNull => Some "null"
  | JBool b => Some (if b then "true" else "false")
  | JNum x => Some (Number.toString (Number.of_literal x))
  | JStr s => Some s
  | JArr items =>
      let fix each (l : list JSON) : option (list string) :=
        match l with
        | [] => Some []
        | x :: rest =>
            s ← match x with JNull => Some "" | _ => ToString x end;
            ss ← each rest;
            Some (s :: ss)
        end in
      join "," <$> each items
  | JObj props =>
      if has_own props "toString" then None else Some "[object Object]"
  end.

(** [`${v}`] where [v] may be [null] in the store. *)
Definition template_opt (v : option string) : string :=
  match v with
  | None => "null"
  | Some s => s
  end.

(** [v.k] for a property name [k] that no prototype defines ([email],
    [name], [content], [text]): [None] is the [TypeError] of reading a
    property of [null] or [undefined]. *)
Definition get (v : option JSON) (k : string) : option (option JSON) :=
  match v with
  | None | Some JNull => None
  | Some (JObj props) => Some (own_prop props k)
  | Some _ => Some None
  end.

(** [v[0]]. *)
Definition get0 (v : option JSON) : option (option JSON) :=
  match v with
  | None | Some JNull => None
  | Some (JObj props) => Some (own_prop props "0")
  | Some (JArr items) => Some (head items)
  | Some (JStr (String c _)) => Some (Some (JStr (String c "")))
  | Some _ => Some None
  end.

Definition isArray (v : JSON) : bool :=
  match v with
  | JArr _ => true
  | _ => false
  end.

Fixpoint chars (s : string) : list JSON :=
  match s with
  | EmptyString => []
  | String c rest => JStr (String c "") :: chars rest
  end.

Definition indexed (l : list JSON) : list (string * JSON) :=
  imap (fun i x => (pretty i, x)) l.

(** [Object.entries(v)]; [None] is the [TypeError] on [null]. *)
Definition entries (v : JSON) : option (list (string * JSON)) :=
  match v with
  | JNull => None
  | JObj props => Some props
  | JArr items => Some (indexed items)
  | JStr s => Some (indexed (chars s))
  | JBool _ | JNum _ => Some []
  end.

(** *** [Number.parseInt] with no radix *)

(** The white space [parseInt] skips, among the code units of the model:
    TAB, LF, VT, FF, CR, SP and NBSP. *)
Definition is_space (c : ascii) : bool :=
  let n := nat_of_ascii c in
  bool_decide (n = 9 ∨ n = 10 ∨ n = 11 ∨ n = 12 ∨ n = 13 ∨ n = 32 ∨ n = 160)%nat.

Fixpoint trim_start (s : string) : string :=
  match s with
  | String c rest => if is_space c then trim_start rest else s
  | EmptyString => s
  end.

Definition digit (radix : Z) (c : ascii) : option Z :=
  let n := Z.of_nat (nat_of_ascii c) in
  let d :=
    if bool_decide (48 ≤ n ≤ 57)%Z then Some (n - 48)%Z
    else if bool_decide (97 ≤ n ≤ 122)%Z then Some (n - 87)%Z
    else if bool_decide (65 ≤ n ≤ 90)%Z then Some (n - 55)%Z
    else None in
  d ≫= fun d => if bool_decide (d < radix)%Z then Some d else None.

(** The longest prefix of digits; [acc] is [None] until a digit is read. *)
Fixpoint digits (radix : Z) (s : string) (acc : option Z) : option Z :=
  match s with
  | EmptyString => acc
  | String c rest =>
      match digit radix c with
      | Some d => digits radix rest (Some (default 0 acc * radix + d)%Z)
      | None => acc
      end
  end.

(** The double nearest to the integer the digits spell, with the sign
    read before them; [NaN] when there is no digit. *)
Definition parseInt (s : string) : Number.Double :=
  let s := trim_start s in
  let '(negative, s) :=
    match s with
    | String "-" rest => (true, rest)
    | String "+" rest => (false, rest)
    | _ => (false, s)
    end in
  let '(radix, s) :=
    match s with
    | String "0" (String "x" rest) | String "0" (String "X" rest) => (16%Z, rest)
    | _ => (10%Z, s)
    end in
  match digits radix s None with
  | Some n => Number.of_integer negative n
  | None => Number.NaN
  end.

End JS.

(** ** The tables of [src/db/schema.ts]

    Text columns hold strings, nullable ones [option string].  The
    [created_at] and [updated_at] columns default to [CURRENT_TIMESTAMP], a
    fixed-width text whose order is the order of time: they are modelled by
    the clock reading itself. *)

Module schema.

Module users.
Record row : Type := mk {
  id : Z;
  email : string;
  name : option string;
  createdAt : Z;
  updatedAt : Z;
}.
End users.

Module userEntries.
Record row : Type := mk {
  id : Z;
  userId : Z;
  content : string;
  aiResponse : option string;
  createdAt : Z;
}.
End userEntries.

Module userContext.
Record row : Type := mk {
  id : Z;
  userId : Z;
  contextKey : string;
  contextValue : string;
  createdAt : Z;
  updatedAt : Z;
}.
End userContext.

End schema.

(** The database: the three tables in row order, and the last id each
    [autoIncrement] key has handed out.  A statement is refused when it
    breaks what the schema declares ([notNull], [unique], [references]) and
    succeeds otherwise: a database that cannot be reached is outside the
    model. *)
Record D1Database : Type := mkDB {
  users : list schema.users.row;
  userEntries : list schema.userEntries.row;
  userContext : list schema.userContext.row;
  seq_users : Z;
  seq_userEntries : Z;
  seq_userContext : Z;
}.

Module DB.

Definition user_exists (db : D1Database) (userId : Z) : bool :=
  bool_decide (userId ∈ schema.users.id <$> users db).

(** [insert(users).values({email, name}).returning()]: [email] is
    [notNull().unique()].  [None] is a rejected statement. *)
Definition insert_users (db : D1Database) (email name : option string) (now : Z)
  : option (schema.users.row * D1Database) :=
  match email with
  | None => None
  | Some e =>
      if bool_decide (e ∈ schema.users.email <$> users db) then None
      else
        let id := (seq_users db + 1)%Z in
        let user := schema.users.mk id e name now now in
        Some (user,
              mkDB (users db ++ [user]) (userEntries db) (userContext db)
                   id (seq_userEntries db) (seq_userContext db))
  end.

(** [insert(userEntries).values({userId, content, aiResponse}).returning()]:
    [userId] references [users.id], [content] is [notNull()]. *)
Definition insert_userEntries (db : D1Database) (userId : Z)
    (content aiResponse : option string) (now : Z)
  : option (schema.userEntries.row * D1Database) :=
  match content with
  | None => None
  | Some text =>
      if user_exists db userId then
        let id := (seq_userEntries db + 1)%Z in
        let entry := schema.userEntries.mk id userId text aiResponse now in
        Some (entry,
              mkDB (users db) (userEntries db ++ [entry]) (userContext db)
                   (seq_users db) id (seq_userContext db))
      else None
  end.

(** One row of a batch insert into [userContext], checked against the
    table: [userId] references [users.id], [contextValue] is [notNull()]. *)
Definition context_row (db : D1Database) (now : Z) (id : Z)
    (v : Z * string * option string) : option schema.userContext.row :=
  let '(userId, contextKey, contextValue) := v in
  match contextValue with
  | Some value =>
      if user_exists db userId
      then Some (schema.userContext.mk id userId contextKey value now now)
      else None
  | None => None
  end.

(** The rows of a batch, numbered from [id] on; [None] when one is refused. *)
Fixpoint context_rows (db : D1Database) (now : Z) (id : Z)
    (values : list (Z * string * option string)) : option (list schema.userContext.row) :=
  match values with
  | [] => Some []
  | v :: rest =>
      row ← context_row db now id v;
      rows ← context_rows db now (id + 1) rest;
      Some (row :: rows)
  end.

(** [insert(userContext).values(rows)]: one statement, all rows or none. *)
Definition insert_userContext (db : D1Database)
    (values : list (Z * string * option string)) (now : Z) : option D1Database :=
  rows ← context_rows db now (seq_userContext db + 1) values;
  Some (mkDB (users db) (userEntries db) (userContext db ++ rows)
             (seq_users db) (seq_userEntries db)
             (seq_userContext db + Z.of_nat (length values))%Z).

(** [delete(userContext).where(eq(userContext.userId, userId))]. *)
Definition delete_userContext (db : D1Database) (userId : Z) : D1Database :=
  mkDB (users db) (userEntries db)
       (filter (fun r => schema.userContext.userId r ≠ userId) (userContext db))
       (seq_users db) (seq_userEntries db) (seq_userContext db).

(** [orderBy(desc(key))]: rows with equal keys keep their table order. *)
Fixpoint insert_desc {A} (key : A → Z) (a : A) (l : list A) : list A :=
  match l with
  | [] => [a]
  | b :: rest => if (key b <=? key a)%Z then a :: l else b :: insert_desc key a rest
  end.

Definition orderBy_desc {A} (key : A → Z) (l : list A) : list A :=
  foldr (insert_desc key) [] l.

(** [LIMIT n] and [OFFSET n] for a count [n]. *)
Fixpoint limit {A} (n : Z) (rows : list A) : list A :=
  match rows with
  | [] => []
  | row :: rest => if (0 <? n)%Z then row :: limit (n - 1) rest else []
  end.

Fixpoint offset {A} (n : Z) (rows : list A) : list A :=
  match rows with
  | [] => []
  | _ :: rest => if (0 <? n)%Z then offset (n - 1) rest else rows
  end.

(** The entries of one user, newest first. *)
Definition entries_of (db : D1Database) (userId : Z) : list schema.userEntries.row :=
  orderBy_desc schema.userEntries.createdAt
    (filter (fun e => schema.userEntries.userId e = userId) (userEntries db)).

(** The context facts of one user, in table order. *)
Definition context_of (db : D1Database) (userId : Z) : list schema.userContext.row :=
  filter (fun r => schema.userContext.userId r = userId) (userContext db).

End DB.

(** ** The runtime around the handlers

    What the handlers use and this repository does not define is a
    parameter: the JWT functions of [hono/jwt], and what the database driver
    and the query builder do with values the schema does not describe. *)
Record Platform : Type := {
  (** [sign({ userId }, secret)]. *)
  sign : Z → string → string;
  (** [verify(token, secret)], read at [payload.userId]; [None] when it
      throws.  Tokens that verify carry a user id, as login signs them. *)
  verify : string → string → option Z;
  (** A value that is neither [null] nor a string, bound to a text column:
      the text it is stored as, or [None] when the driver refuses it. *)
  bind_other : JSON → option string;
  (** [.limit(l).offset(o)] where [l] or [o] is no count ([NaN], negative,
      or beyond the safe integers): the rows returned, or [None] when the
      statement fails. *)
  page_other : Number.Double → Number.Double → list schema.userEntries.row
               → option (list schema.userEntries.row);
}.

(** The [Bindings] of the worker other than the database. *)
Record Bindings : Type := {
  JWT_SECRET : string;
  ANTHROPIC_API_KEY : string;
}.

(** What a handler reads of the request: the [Authorization] header, the
    query string, and the body as [c.req.json()] parses it ([None] when it is
    not JSON). *)
Record Request : Type := {
  Authorization : option string;
  query : list (string * string);
  json : option JSON;
}.

(** [c.req.query(k)]: the first value given for [k]. *)
Definition req_query (c : Request) (k : string) : option string :=
  (fun found => found.2.2) <$> list_find (fun p => p.1 = k) (query c).

Inductive Body : Type :=
  | Text (text : string)
  | ErrorJson (error : string)
  | LoginJson (token : string) (id : Z) (email : string) (name : option string)
  | EntryJson (entry : schema.userEntries.row) (recommendation : option JSON)
  | EntriesJson (entries : list schema.userEntries.row)
  | ProfileJson (id : Z) (email : string) (name : option string)
                (context : gmap string (list string))
  | SuccessJson (message : string)
  | OpenAPISpec (title version : string).

Record Response : Type := {
  status : Z;
  body : Body;
}.

(** [new HTTPException(status, { message })] as Hono answers it. *)
Definition HTTPException (status : Z) (message : string) : Response :=
  {| status := status; body := Text message |}.

(** [c.json({ error }, status)]. *)
Definition json_error (error : string) (status : Z) : Response :=
  {| status := status; body := ErrorJson error |}.

(** Hono's answer to an error no handler catches. *)
Definition internal_server_error : Response :=
  {| status := 500; body := Text "Internal Server Error" |}.

(** The outbound request of [fetch]. *)
Record FetchRequest : Type := {
  url : string;
  method : string;
  x_api_key : string;
  anthropic_version : string;
  model : string;
  max_tokens : Z;
  messages : list (string * string);
}.

(** What [fetch] and [aiResponse.json()] give back: a rejected promise, or a
    response with its [ok] flag and its body ([None] when it is not JSON). *)
Inductive FetchResult : Type :=
  | NetworkFailure
  | HttpResponse (ok : bool) (data : option JSON).

(** A handler run: it ends with a value, or performs a [fetch] and goes on
    with its result. *)
Inductive Exec (A : Type) : Type :=
  | Ret (a : A)
  | Fetch (rq : FetchRequest) (k : FetchResult → Exec A).
Arguments Ret {A} a.
Arguments Fetch {A} rq k.

(** Running a handler against the results the network gives, in order (a
    failure once they are used up); the requests sent are recorded. *)
Fixpoint run {A} (net : list FetchResult) (e : Exec A) : A * list FetchRequest :=
  match e with
  | Ret a => (a, [])
  | Fetch rq k =>
      let '(a, sent) := run (tail net) (k (default NetworkFailure (head net))) in
      (a, rq :: sent)
  end.

Definition nl : string := String "010"%char "".
Definition dquote : string := String "034"%char "".

(** [s.substring(n)]. *)
Fixpoint substring_from (n : nat) (s : string) : string :=
  match n, s with
  | S n, String _ rest => substring_from n rest
  | _, _ => s
  end.

(** A JS value bound to a text column: [Some None] is SQL [NULL], [None] a
    value the driver refuses. *)
Definition bind (P : Platform) (v : JSON) : option (option string) :=
  match v with
  | JNull => Some None
  | JStr s => Some (Some s)
  | _ => Some <$> bind_other P v
  end.

(** The same for a value that may be [undefined], which an insert leaves to
    the column default. *)
Definition bind_opt (P : Platform) (v : option JSON) : option (option string) :=
  match v with
  | None => Some None
  | Some v => bind P v
  end.

(** ** The handlers of [src/index.ts] *)

Section Handlers.

Context (P : Platform) (env : Bindings).

(** [authMiddleware]: [next] is the handler behind it, given the [userId]
    the middleware sets on the context.  An error thrown behind it is
    answered by Hono where it is thrown, so that [next()] returns and the
    [catch] of the middleware is only for [verify]. *)
Definition authMiddleware {A} (c : Request) (db : A)
    (next : Z → Exec (Response * A)) : Exec (Response * A) :=
  match Authorization c with
  | Some authHeader =>
      if String.prefix "Bearer " authHeader then
        let token := substring_from 7 authHeader in
        match verify P token (JWT_SECRET env) with
        | Some userId => next userId
        | None => Ret (HTTPException 401 "Invalid token", db)
        end
      else Ret (HTTPException 401 "Unauthorized", db)
  | None => Ret (HTTPException 401 "Unauthorized", db)
  end.

(** [GET /]. *)
Definition get_root : Response :=
  {| status := 200; body := Text "Personal Happiness Assistant API" |}.

(** [name || null]. *)
Definition or_null (v : option JSON) : JSON :=
  match v with
  | Some v => if JS.truthy v then v else JNull
  | None => JNull
  end.

(** The [try] block of [POST /auth/login]; [None] is a throw. *)
Definition login_try (email : JSON) (name : option JSON) (now : Z) (db : D1Database)
  : option (Response * D1Database) :=
  e ← bind P email;
  let found :=
    match e with
    | Some e => filter (fun u => schema.users.email u = e) (users db)
    | None => []
    end in
  found ←
    match head found with
    | Some user => Some (user, db)
    | None => n ← bind P (or_null name); DB.insert_users db e n now
    end;
  let user := found.1 in
  let token := sign P (schema.users.id user) (JWT_SECRET env) in
  Some ({| status := 200;
           body := LoginJson token (schema.users.id user) (schema.users.email user)
                             (schema.users.name user) |}, found.2).

(** [POST /auth/login]. *)
Definition post_auth_login (c : Request) (now : Z) (db : D1Database)
  : Response * D1Database :=
  match JS.get (json c) "email", JS.get (json c) "name" with
  | Some (Some email), Some name =>
      if JS.truthy email
      then default (json_error "Login failed" 500, db) (login_try email name now db)
      else (json_error "Email is required" 400, db)
  | Some None, Some _ => (json_error "Email is required" 400, db)
  | _, _ => (internal_server_error, db)
  end.

Definition contextString (userContextData : list schema.userContext.row) : string :=
  JS.join ", "
    ((fun ctx => schema.userContext.contextKey ctx +:+ ": " +:+ schema.userContext.contextValue ctx)
       <$> userContextData).

Definition historyString (recentEntries : list schema.userEntries.row) : string :=
  JS.join (nl +:+ nl)
    ((fun entry => "User: " +:+ schema.userEntries.content entry +:+ nl +:+ "AI: "
                   +:+ JS.template_opt (schema.userEntries.aiResponse entry))
       <$> recentEntries).

Definition aiPrompt (contextString historyString content : string) : string :=
  "You are a personal well-being assistant focused on helping people become happier. " +:+ nl
  +:+ nl
  +:+ "User Context: " +:+ JS.or_string (Some contextString) "No specific context available" +:+ nl
  +:+ nl
  +:+ "Recent conversation history:" +:+ nl
  +:+ JS.or_string (Some historyString) "No previous conversations" +:+ nl
  +:+ nl
  +:+ "Current user input: " +:+ dquote +:+ content +:+ dquote +:+ nl
  +:+ nl
  +:+ "Please provide personalized, actionable advice to help this person improve their well-being and happiness. Be empathetic, specific, and solution-focused. Consider their unique circumstances and history.".

Definition messages_request (prompt : string) : FetchRequest :=
  {| url := "https://api.anthropic.com/v1/messages";
     method := "POST";
     x_api_key := ANTHROPIC_API_KEY env;
     anthropic_version := "2023-06-01";
     model := "claude-3-sonnet-20240229";
     max_tokens := 1000;
     messages := [("user", prompt)] |}.

(** [aiData.content[0].text]; the outer [None] is a [TypeError]. *)
Definition recommendation_of (aiData : JSON) : option (option JSON) :=
  content ← JS.get (Some aiData) "content";
  first ← JS.get0 content;
  JS.get first "text".

(** [POST /entries] from the answer of [fetch] on; [None] is a throw. *)
Definition entries_after_fetch (userId : Z) (content : JSON) (now : Z) (db : D1Database)
    (aiResponse : FetchResult) : option (Response * D1Database) :=
  match aiResponse with
  | NetworkFailure => None
  | HttpResponse ok data =>
      if ok then
        aiData ← data;
        recommendation ← recommendation_of aiData;
        text ← bind P content;
        reply ← bind_opt P recommendation;
        inserted ← DB.insert_userEntries db userId text reply now;
        Some ({| status := 200; body := EntryJson inserted.1 recommendation |}, inserted.2)
      else None
  end.

Definition failed_recommendation : Response :=
  json_error "Failed to generate recommendation" 500.

(** The [try] block of [POST /entries]. *)
Definition entries_try (userId : Z) (content : JSON) (now : Z) (db : D1Database)
  : Exec (Response * D1Database) :=
  let userContextData := DB.context_of db userId in
  let recentEntries := take 5 (DB.entries_of db userId) in
  match JS.ToString content with
  | Some text =>
      Fetch
        (messages_request
           (aiPrompt (contextString userContextData) (historyString recentEntries) text))
        (fun aiResponse =>
           Ret (default (failed_recommendation, db)
                        (entries_after_fetch userId content now db aiResponse)))
  | None => Ret (failed_recommendation, db)
  end.

(** [POST /entries]. *)
Definition post_entries (c : Request) (now : Z) (db : D1Database)
  : Exec (Response * D1Database) :=
  authMiddleware c db (fun userId =>
    match JS.get (json c) "content" with
    | Some (Some content) =>
        if JS.truthy content
        then entries_try userId content now db
        else Ret (json_error "Content is required" 400, db)
    | Some None => Ret (json_error "Content is required" 400, db)
    | None => Ret (internal_server_error, db)
    end).

(** [.limit(limit).offset(offset)] on the ordered rows. *)
Definition page (limit offset : Number.Double) (rows : list schema.userEntries.row)
  : option (list schema.userEntries.row) :=
  match Number.count limit, Number.count offset with
  | Some l, Some o => Some (DB.limit l (DB.offset o rows))
  | _, _ => page_other P limit offset rows
  end.

(** [GET /entries]. *)
Definition get_entries (c : Request) (db : D1Database) : Exec (Response * D1Database) :=
  authMiddleware c db (fun userId =>
    let limit := JS.parseInt (JS.or_string (req_query c "limit") "20") in
    let offset := JS.parseInt (JS.or_string (req_query c "offset") "0") in
    match page limit offset (DB.entries_of db userId) with
    | Some entries => Ret ({| status := 200; body := EntriesJson entries |}, db)
    | None => Ret (json_error "Failed to fetch entries" 500, db)
    end).

(** The property names every object literal inherits from
    [Object.prototype]: reading one of them off [{}] gives a function (for
    [__proto__], the prototype itself), which is truthy and is no array. *)
Definition Object_prototype : list string :=
  [ "constructor"; "__defineGetter__"; "__defineSetter__"; "hasOwnProperty";
    "__lookupGetter__"; "__lookupSetter__"; "isPrototypeOf";
    "propertyIsEnumerable"; "toString"; "valueOf"; "__proto__";
    "toLocaleString" ].

(** One turn of the [forEach] that groups the context by key; [None] is the
    [TypeError] of calling [push] on a value that has none. *)
Definition group_item (context : gmap string (list string)) (item : schema.userContext.row)
  : option (gmap string (list string)) :=
  let key := schema.userContext.contextKey item in
  let value := schema.userContext.contextValue item in
  match context !! key with
  | Some values => Some (<[key := (values ++ [value])%list]> context)
  | None =>
      if bool_decide (key ∈ Object_prototype) then None
      else Some (<[key := [value]]> context)
  end.

Definition group_context (contextData : list schema.userContext.row)
  : option (gmap string (list string)) :=
  foldl (fun context item => context ≫= fun context => group_item context item)
        (Some ∅) contextData.

Definition failed_profile : Response := json_error "Failed to fetch profile" 500.

(** [GET /profile]. *)
Definition get_profile (c : Request) (db : D1Database) : Exec (Response * D1Database) :=
  authMiddleware c db (fun userId =>
    let user := head (filter (fun u => schema.users.id u = userId) (users db)) in
    let contextData := DB.context_of db userId in
    match group_context contextData, user with
    | Some context, Some user =>
        Ret ({| status := 200;
                body := ProfileJson (schema.users.id user) (schema.users.email user)
                                    (schema.users.name user) context |}, db)
    | _, _ => Ret (failed_profile, db)
    end).

(** The rows one property of the update adds to [contextEntries]: the
    elements of an array as they are, any other value through [String]. *)
Definition context_entries_of (userId : Z) (kv : string * JSON)
  : option (list (Z * string * JSON)) :=
  let '(key, values) := kv in
  match values with
  | JArr values => Some ((fun value => (userId, key, value)) <$> values)
  | _ => text ← JS.ToString values; Some [(userId, key, JStr text)]
  end.

(** The loop that fills [contextEntries]; [None] is a throw. *)
Definition contextEntries (userId : Z) (contextUpdates : JSON)
  : option (list (Z * string * JSON)) :=
  props ← JS.entries contextUpdates;
  rows ← mapM (context_entries_of userId) props;
  Some (List.concat rows).

Definition bind_row (v : Z * string * JSON) : option (Z * string * option string) :=
  value ← bind P v.2; Some (v.1, value).

(** The [try] block of [PUT /profile] after the delete; [None] is a throw. *)
Definition profile_insert (userId : Z) (contextUpdates : JSON) (now : Z) (db : D1Database)
  : option D1Database :=
  contextEntries ← contextEntries userId contextUpdates;
  if bool_decide (0 < length contextEntries)%nat then
    values ← mapM bind_row contextEntries;
    DB.insert_userContext db values now
  else Some db.

Definition profile_updated : Response :=
  {| status := 200; body := SuccessJson "Profile updated successfully" |}.

Definition failed_update : Response := json_error "Failed to update profile" 500.

(** [PUT /profile]. *)
Definition put_profile (c : Request) (now : Z) (db : D1Database)
  : Exec (Response * D1Database) :=
  authMiddleware c db (fun userId =>
    match json c with
    | Some contextUpdates =>
        let cleared := DB.delete_userContext db userId in
        match profile_insert userId contextUpdates now cleared with
        | Some db => Ret (profile_updated, db)
        | None => Ret (failed_update, cleared)
        end
    | None => Ret (internal_server_error, db)
    end).

(** [GET /openapi.json]: the list of routes, under a title and a version. *)
Definition get_openapi : Response :=
  {| status := 200; body := OpenAPISpec "Personal Happiness Assistant API" "1.0.0" |}.

(** *** The routes

    The explorer mounted under [/fp/*] is not a route of its own here: what
    it sends to the API arrives as a request for one of these. *)

Inductive Route : Type :=
  | GET_root
  | POST_auth_login
  | POST_entries
  | GET_entries
  | GET_profile
  | PUT_profile
  | GET_openapi.

Definition handle (route : Route) (c : Request) (now : Z) (db : D1Database)
  : Exec (Response * D1Database) :=
  match route with
  | GET_root => Ret (get_root, db)
  | POST_auth_login => Ret (post_auth_login c now db)
  | POST_entries => post_entries c now db
  | GET_entries => get_entries c db
  | GET_profile => get_profile c db
  | PUT_profile => put_profile c now db
  | GET_openapi => Ret (get_openapi, db)
  end.

(** One request as the worker receives it: the route, the request, the clock
    and what the network answers while it is served. *)
Record Call : Type := {
  route : Route;
  request : Request;
  clock : Z;
  network : list FetchResult;
}.

Definition serve (call : Call) (db : D1Database) : Response * D1Database * list FetchRequest :=
  run (network call) (handle (route call) (request call) (clock call) db).

(** The database after a sequence of requests served one after the other. *)
Definition serve_all (calls : list Call) (db : D1Database) : D1Database :=
  foldl (fun db call => (serve call db).1.2) db calls.

End Handlers.

(** ** Notions the properties are stated with *)

(** *** Authentication *)

(** The request carries [Authorization: Bearer <token>] with a token that
    verifies, under the server's secret, to [userId]. *)
Definition authenticated (P : Platform) (env : Bindings) (c : Request) (userId : Z) : Prop :=
  ∃ token, Authorization c = Some ("Bearer " +:+ token)
           ∧ verify P token (JWT_SECRET env) = Some userId.

(** The routes behind [authMiddleware]. *)
Definition protected (route : Route) : Prop :=
  route = POST_entries ∨ route = GET_entries ∨ route = GET_profile ∨ route = PUT_profile.

(** Why a credential is refused. *)
Inductive Refusal : Type :=
  | Missing
  | Malformed
  | Unverified.

Definition refused (P : Platform) (env : Bindings) (c : Request) (why : Refusal) : Prop :=
  match why with
  | Missing => Authorization c = None
  | Malformed => ∃ authHeader, Authorization c = Some authHeader
                               ∧ String.prefix "Bearer " authHeader = false
  | Unverified => ∃ token, Authorization c = Some ("Bearer " +:+ token)
                           ∧ verify P token (JWT_SECRET env) = None
  end.

(** The message a refusal is answered with. *)
Definition refusal_message (why : Refusal) : string :=
  match why with
  | Missing | Malformed => "Unauthorized"
  | Unverified => "Invalid token"
  end.

(** *** Handler runs *)

(** A property of whatever value a handler run ends with. *)
Inductive ends_with {A} (Q : A → Prop) : Exec A → Prop :=
  | ends_ret a : Q a → ends_with Q (Ret a)
  | ends_fetch rq k : (∀ result, ends_with Q (k result)) → ends_with Q (Fetch rq k).

(** *** Entry submission *)

(** The submitted content is empty or absent: whatever [content] the body
    has is falsy (this covers a body with no [content], and a body that is
    [null] or not JSON at all). *)
Definition content_empty (c : Request) : Prop :=
  ∀ content, JS.get (json c) "content" = Some (Some content) → JS.truthy content = false.

(** The body the handler takes the answer of the service to be,
    [{ content: Array<{ text: string }> }], read where the handler reads it:
    the first element of [content] is an object whose [text] is [text]. *)
Definition completion_text (aiData : JSON) (text : string) : Prop :=
  ∃ data first more,
    aiData = JObj data
    ∧ JS.own_prop data "content" = Some (JArr (JObj first :: more))
    ∧ JS.own_prop first "text" = Some (JStr text).

(** [aiData.content[0]] when it can be read and is there. *)
Definition first_content (aiData : JSON) : option JSON :=
  content ← JS.get (Some aiData) "content";
  first ← JS.get0 content;
  first.

(** The completion call failed: the network failed, the status is not a
    success, the body is not JSON, or the body has no first content element
    ([content[0]] cannot be read, is missing or is [null]). *)
Inductive upstream_failure : FetchResult → Prop :=
  | network_failure : upstream_failure NetworkFailure
  | non_success data : upstream_failure (HttpResponse false data)
  | not_json ok : upstream_failure (HttpResponse ok None)
  | no_first_content ok aiData :
      first_content aiData = None ∨ first_content aiData = Some JNull →
      upstream_failure (HttpResponse ok (Some aiData)).

(** *** The context assembler, in the words of the specification *)

Definition fact_pair (fact : schema.userContext.row) : string :=
  schema.userContext.contextKey fact +:+ ": " +:+ schema.userContext.contextValue fact.

Definition entry_block (entry : schema.userEntries.row) : string :=
  "User: " +:+ schema.userEntries.content entry +:+ nl +:+ "AI: "
  +:+ JS.template_opt (schema.userEntries.aiResponse entry).

Definition spec_context (facts : list schema.userContext.row) : string :=
  match facts with
  | [] => "No specific context available"
  | _ => JS.join ", " (fact_pair <$> facts)
  end.

Definition spec_history (entries : list schema.userEntries.row) : string :=
  match entries with
  | [] => "No previous conversations"
  | _ => JS.join (nl +:+ nl) (entry_block <$> take (length entries `min` 5) entries)
  end.

Definition prompt_intro : string :=
  "You are a personal well-being assistant focused on helping people become happier. "
  +:+ nl +:+ nl +:+ "User Context: ".

Definition prompt_history : string :=
  nl +:+ nl +:+ "Recent conversation history:" +:+ nl.

Definition prompt_input (content : string) : string :=
  nl +:+ nl +:+ "Current user input: " +:+ dquote +:+ content +:+ dquote +:+ nl +:+ nl
  +:+ "Please provide personalized, actionable advice to help this person improve their well-being and happiness. Be empathetic, specific, and solution-focused. Consider their unique circumstances and history.".

Definition spec_prompt (facts : list schema.userContext.row)
    (entries : list schema.userEntries.row) (content : string) : string :=
  prompt_intro +:+ spec_context facts +:+ prompt_history +:+ spec_history entries
  +:+ prompt_input content.

(** *** History *)

(** [newer_first key a b]: [a] may stand before [b] in a list ordered by
    [key], newest first. *)
Definition newer_first {A} (key : A → Z) (a b : A) : Prop := (key b ≤ key a)%Z.

(** What a step may do to the table of entries: add rows at its end. *)
Definition extends (db : D1Database) (r : Response * D1Database) : Prop :=
  userEntries db `prefix_of` userEntries r.2.

(** *** Login *)

(** The answer of a successful login for [user]. *)
Definition login_ok (P : Platform) (env : Bindings) (user : schema.users.row) : Response :=
  {| status := 200;
     body := LoginJson (sign P (schema.users.id user) (JWT_SECRET env))
                       (schema.users.id user) (schema.users.email user)
                       (schema.users.name user) |}.

(** *** Profile context *)

(** The [(key, value)] pairs of stored facts. *)
Definition pairs_of (facts : list schema.userContext.row) : list (string * string) :=
  (fun fact => (schema.userContext.contextKey fact, schema.userContext.contextValue fact))
    <$> facts.

(** The values given for [key], in order. *)
Definition values_for (key : string) (rows : list (string * string)) : list string :=
  snd <$> filter (fun kv => kv.1 = key) rows.

(** A key of the grouped map is there exactly when it has a value. *)
Definition nonempty {A} (l : list A) : option (list A) :=
  match l with
  | [] => None
  | _ => Some l
  end.

(** The rows one property of a profile update stands for, in the words of
    the specification: one row per element of an array, one row for any
    other value, with its text.  [None] for what this reading does not
    cover: an array element that is not a string, a value with no text. *)
Definition submitted (kv : string * JSON) : option (list (string * string)) :=
  match kv.2 with
  | JArr values =>
      mapM (fun value => match value with JStr text => Some (kv.1, text) | _ => None end) values
  | value => text ← JS.ToString value; Some [(kv.1, text)]
  end.

Definition submitted_rows (props : list (string * JSON)) : option (list (string * string)) :=
  chunks ← mapM submitted props; Some (List.concat chunks).

(** A submitted row as the insert receives it. *)
Definition bound (userId : Z) (kv : string * string) : Z * string * option string :=
  (userId, kv.1, Some kv.2).

(** A row the loop of [PUT /profile] built, and the fact it is stored as. *)
Definition stored_as (P : Platform) (e : Z * string * JSON) (fact : schema.userContext.row)
  : Prop :=
  e.1 = (schema.userContext.userId fact, schema.userContext.contextKey fact)
  ∧ bind P e.2 = Some (Some (schema.userContext.contextValue fact)).

(** *** Routes and stored state *)

(** The routes that only read. *)
Definition reads (route : Route) : Prop :=
  route = GET_root ∨ route = GET_entries ∨ route = GET_profile ∨ route = GET_openapi.

(** The outbound request the worker makes, whatever its prompt. *)
Definition completion_request (env : Bindings) (rq : FetchRequest) : Prop :=
  ∃ prompt, rq = {| url := "https://api.anthropic.com/v1/messages";
                    method := "POST";
                    x_api_key := ANTHROPIC_API_KEY env;
                    anthropic_version := "2023-06-01";
                    model := "claude-3-sonnet-20240229";
                    max_tokens := 1000;
                    messages := [("user", prompt)] |}.

(** A run that ends at once or, when [calls] allows it, makes one completion
    request and ends on its answer. *)
Definition one_call {A} (env : Bindings) (calls : Prop) (e : Exec A) : Prop :=
  (∃ r, e = Ret r)
  ∨ (calls ∧ ∃ rq k, e = Fetch rq k ∧ completion_request env rq ∧ ∀ result, ∃ r, k result = Ret r).

(** The submitted email is empty or absent. *)
Definition email_empty (email : option JSON) : Prop :=
  ∀ value, email = Some value → JS.truthy value = false.

(** What the schema promises of the stored rows: ids are unique and were
    handed out by their sequence, emails are unique, and every entry and
    every context fact belongs to a stored user. *)
Record consistent (db : D1Database) : Prop := {
  users_ids : NoDup (schema.users.id <$> users db);
  users_emails : NoDup (schema.users.email <$> users db);
  users_seq : Forall (fun u => (schema.users.id u ≤ seq_users db)%Z) (users db);
  entries_ids : NoDup (schema.userEntries.id <$> userEntries db);
  entries_seq :
    Forall (fun e => (schema.userEntries.id e ≤ seq_userEntries db)%Z) (userEntries db);
  entries_owner :
    Forall (fun e => schema.userEntries.userId e ∈ schema.users.id <$> users db)
           (userEntries db);
  context_ids : NoDup (schema.userContext.id <$> userContext db);
  context_seq :
    Forall (fun f => (schema.userContext.id f ≤ seq_userContext db)%Z) (userContext db);
  context_owner :
    Forall (fun f => schema.userContext.userId f ∈ schema.users.id <$> users db)
           (userContext db);
}.

(** ** A small world to run the handlers in *)

Module Demo.

(** Tokens are the secret followed by the user id; the driver refuses
    whatever is not text and the query builder whatever is not a count. *)
Definition platform : Platform := {|
  sign := fun id secret => secret +:+ ":" +:+ pretty id;
  verify := fun token secret =>
    if String.prefix (secret +:+ ":") token
    then Number.integer (JS.parseInt (substring_from (S (String.length secret)) token))
    else None;
  bind_other := fun _ => None;
  page_other := fun _ _ _ => None;
|}.

Definition env : Bindings := {| JWT_SECRET := "s3cret"; ANTHROPIC_API_KEY := "key" |}.

Definition ada : schema.users.row := schema.users.mk 1 "ada@example.org" (Some "Ada") 100 100.

Definition entry (id createdAt : Z) (content reply : string) : schema.userEntries.row :=
  schema.userEntries.mk id 1 content (Some reply) createdAt.

Definition fact (id : Z) (key value : string) : schema.userContext.row :=
  schema.userContext.mk id 1 key value 100 100.

(** One user, three entries, one context fact. *)
Definition db : D1Database :=
  mkDB [ada]
       [entry 1 110 "first" "one"; entry 2 120 "second" "two"; entry 3 130 "third" "three"]
       [fact 1 "goal" "rest"]
       1 3 1.

Definition request (authorization : option string) (query : list (string * string))
    (json : option JSON) : Request :=
  {| Authorization := authorization; query := query; json := json |}.

Definition bearer : option string := Some "Bearer s3cret:1".

Definition no_header : Request := request None [] None.
Definition bad_scheme : Request := request (Some "Basic s3cret:1") [] None.
Definition bad_token : Request := request (Some "Bearer forged") [] None.

Definition post (content : JSON) : Request :=
  request bearer [] (Some (JObj [("content", content)])).

(** A completion whose first content element carries [text]. *)
Definition completion (text : string) : JSON :=
  JObj [("id", JStr "msg_1");
        ("content", JArr [JObj [("type", JStr "text"); ("text", JStr text)]])].

(** A completion whose first content element carries no text. *)
Definition textless : JSON := JObj [("content", JArr [JObj [("type", JStr "text")]])].

Definition login (email : string) (name : option string) : Request :=
  request None []
    (Some (JObj (("email", JStr email)
                 :: match name with Some name => [("name", JStr name)] | None => [] end))).

Definition put (contextUpdates : JSON) : Request := request bearer [] (Some contextUpdates).

Definition get : Request := request bearer [] None.

(** The update of the specification's example. *)
Definition mood_and_goal : JSON :=
  JObj [("mood", JArr [JStr "happy"; JStr "calm"]); ("goal", JStr "sleep")].

(** An update of numbers ([30], [0.5], [1e21]), a boolean, [null] and an
    object. *)
Definition values : list (string * JSON) :=
  [("age", JNum (Number.int 30));
   ("ratio", JNum (Number.literal false 5 (-1)));
   ("big", JNum (Number.literal false 1 21));
   ("pets", JBool false);
   ("home", JNull);
   ("work", JObj [("role", JStr "nurse")])].

End Demo.

(** * Properties *)

(** ** Numbers *)

(** What [JSON.parse] and [String] make of some literals: integers print
    their digits up to [2^53]; beyond, and for fractions, the shortest
    decimal that reads back; from [1e21] on and below [1e-6], with an
    exponent. *)
Example number_texts :
  (fun x => Number.toString (Number.of_literal x))
    <$> [ Number.int 30; Number.int (-7); Number.literal true 0 0;
          Number.literal false 5 (-1); Number.literal false 1 (-1);
          Number.literal false 30000000000000004 (-17);
          Number.int 9007199254740993; Number.int 18446744073709551616;
          Number.literal false 1 21; Number.literal false 1 (-6);
          Number.literal false 1 (-7); Number.literal false 5 (-324);
          Number.literal false 17976931348623157 292; Number.literal false 1 309 ]
  = [ "30"; "-7"; "0"; "0.5"; "0.1"; "0.30000000000000004"; "9007199254740992";
      "18446744073709552000"; "1e+21"; "0.000001"; "1e-7"; "5e-324";
      "1.7976931348623157e+308"; "Infinity" ].
Proof. by vm_compute. Qed.

(** What [parseInt] reads, and which of it is a count: leading white space
    (the no-break space too) and what follows the digits are dropped; a
    number beyond the safe integers is rounded to a double and is no count;
    without a digit there is no number. *)
Example parseInt_counts :
  (fun s => Number.count (JS.parseInt s))
    <$> [ "20"; "0"; " 7 rows"; String (ascii_of_nat 160) "2"; "0x1f";
          "9007199254740991"; "9007199254740992"; "9223372036854775807";
          "99999999999999999999"; "-1"; "-0"; "many"; "" ]
  = [ Some 20%Z; Some 0%Z; Some 7%Z; Some 2%Z; Some 31%Z; Some 9007199254740991%Z;
      None; None; None; None; None; None; None ].
Proof. by vm_compute. Qed.

Example parseInt_rounds :
  Number.integer (JS.parseInt "99999999999999999999") = Some 100000000000000000000%Z
  ∧ Number.integer (JS.parseInt "9223372036854775807") = Some 9223372036854775808%Z
  ∧ JS.parseInt "many" = Number.NaN.
Proof. by vm_compute. Qed.

(** ** Ordering by creation time *)

Section OrderBy.

Context {A : Type} (key : A → Z).

Lemma insert_desc_perm (a : A) (l : list A) : DB.insert_desc key a l ≡ₚ a :: l.
Proof.
  induction l as [|b rest IH]; simpl; [done|].
  destruct (key b <=? key a)%Z; [done|].
  rewrite IH. apply Permutation_swap.
Qed.

Lemma orderBy_desc_perm (l : list A) : DB.orderBy_desc key l ≡ₚ l.
Proof.
  induction l as [|a rest IH]; simpl; [done|].
  rewrite insert_desc_perm. by rewrite IH.
Qed.

Lemma insert_desc_sorted (a : A) (l : list A) :
  StronglySorted (newer_first key) l → StronglySorted (newer_first key) (DB.insert_desc key a l).
Proof.
  induction 1 as [|b rest Hrest IH Hb]; simpl.
  { repeat constructor. }
  destruct (Z.leb_spec (key b) (key a)) as [Hle|Hlt].
  - constructor; [by constructor|].
    constructor; [done|].
    eapply Forall_impl; [exact Hb|].
    unfold newer_first. intros x Hx. lia.
  - constructor; [done|].
    rewrite insert_desc_perm. constructor; [|done].
    unfold newer_first. lia.
Qed.

Lemma orderBy_desc_sorted (l : list A) :
  StronglySorted (newer_first key) (DB.orderBy_desc key l).
Proof.
  induction l as [|a rest IH]; simpl; [constructor|].
  by apply insert_desc_sorted.
Qed.

End OrderBy.

(** ** Runs *)

(** What holds of every end of a handler holds of its run, whatever the
    network answers. *)
Lemma ends_with_run {A} (Q : A → Prop) (e : Exec A) (net : list FetchResult) :
  ends_with Q e → Q (run net e).1.
Proof.
  intros He. revert net. induction He as [a Ha|rq k _ IH]; intros net; simpl; [done|].
  specialize (IH (default NetworkFailure (head net)) (tail net)).
  by destruct (run _ _).
Qed.

(** ** The auth gate *)

Section Auth.

Context (P : Platform) (env : Bindings).

Lemma prefix_append (s t : string) : String.prefix s (s +:+ t) = true.
Proof.
  induction s as [|a s IH]; simpl; [by destruct t|].
  unfold String.append; simpl. fold (String.append s t).
  by destruct (ascii_dec a a).
Qed.

Lemma substring_from_append (s t : string) : substring_from (String.length s) (s +:+ t) = t.
Proof.
  induction s as [|a s IH]; simpl; [by destruct t|].
  unfold String.append; simpl. by fold (String.append s t).
Qed.

Lemma authMiddleware_next {A} (c : Request) (db : A) next userId :
  authenticated P env c userId → authMiddleware P env c db next = next userId.
Proof.
  intros (token & Hheader & Hverify). unfold authMiddleware.
  rewrite Hheader, prefix_append.
  change 7%nat with (String.length "Bearer ").
  by rewrite substring_from_append, Hverify.
Qed.

Lemma authMiddleware_refused {A} (c : Request) (db : A) next why :
  refused P env c why →
  authMiddleware P env c db next
  = Ret (HTTPException 401 (refusal_message why), db).
Proof.
  unfold authMiddleware, refused. destruct why.
  - by intros ->.
  - by intros (authHeader & -> & ->).
  - intros (token & -> & Hverify). rewrite prefix_append.
    change 7%nat with (String.length "Bearer ").
    by rewrite substring_from_append, Hverify.
Qed.

(** C8, as the code has it: behind [authMiddleware] every refused credential
    is answered with status 401 and nothing is read or written, but the
    message tells a missing or malformed header ([Unauthorized]) from a token
    that does not verify ([Invalid token]). *)
Theorem auth_failure_response (route : Route) (c : Request) (now : Z) (db : D1Database)
    (why : Refusal) :
  protected route →
  refused P env c why →
  handle P env route c now db
  = Ret (HTTPException 401 (refusal_message why), db).
Proof.
  intros Hroute Hwhy.
  destruct Hroute as [-> | [-> | [-> | ->]]]; simpl;
    unfold post_entries, get_entries, get_profile, put_profile;
    by apply authMiddleware_refused.
Qed.

End Auth.

Lemma auth_failure_response_witness :
  protected GET_profile
  ∧ refused Demo.platform Demo.env Demo.bad_scheme Malformed
  ∧ handle Demo.platform Demo.env GET_profile Demo.bad_scheme 0 Demo.db
    = Ret (HTTPException 401 "Unauthorized", Demo.db).
Proof.
  assert (Hroute : protected GET_profile) by (right; right; left; reflexivity).
  assert (Hwhy : refused Demo.platform Demo.env Demo.bad_scheme Malformed)
    by (eexists; split; reflexivity).
  split; [exact Hroute|]. split; [exact Hwhy|].
  exact (auth_failure_response Demo.platform Demo.env GET_profile Demo.bad_scheme 0 Demo.db
           Malformed Hroute Hwhy).
Defined.

(** C8 as stated fails: a request with no header and a request with a forged
    token are both refused with 401, and the two responses differ. *)
Lemma auth_failure_tells_cause :
  refused Demo.platform Demo.env Demo.no_header Missing
  ∧ refused Demo.platform Demo.env Demo.bad_token Unverified
  ∧ (run [] (post_entries Demo.platform Demo.env Demo.no_header 0 Demo.db)).1.1
    = {| status := 401; body := Text "Unauthorized" |}
  ∧ (run [] (post_entries Demo.platform Demo.env Demo.bad_token 0 Demo.db)).1.1
    = {| status := 401; body := Text "Invalid token" |}
  ∧ (run [] (post_entries Demo.platform Demo.env Demo.no_header 0 Demo.db)).1.1
    ≠ (run [] (post_entries Demo.platform Demo.env Demo.bad_token 0 Demo.db)).1.1.
Proof.
  split; [reflexivity|].
  split; [by exists "forged"|].
  split; [reflexivity|]. split; [reflexivity|].
  discriminate.
Qed.

(** ** The entry pipeline *)

Section Entries.

Context (P : Platform) (env : Bindings).

(** An authenticated submission with content that prints reaches the
    completion service with the assembled prompt, and goes on with whatever
    the service answers. *)
Lemma post_entries_fetch (c : Request) (now : Z) (db : D1Database) userId content text :
  authenticated P env c userId →
  JS.get (json c) "content" = Some (Some content) →
  JS.truthy content = true →
  JS.ToString content = Some text →
  post_entries P env c now db
  = Fetch (messages_request env
             (aiPrompt (contextString (DB.context_of db userId))
                       (historyString (take 5 (DB.entries_of db userId))) text))
          (fun aiResponse =>
             Ret (default (failed_recommendation, db)
                          (entries_after_fetch P userId content now db aiResponse))).
Proof.
  intros Hauth Hcontent Htruthy Htext. unfold post_entries.
  rewrite (authMiddleware_next P env c db _ userId Hauth), Hcontent. simpl.
  rewrite Htruthy. unfold entries_try. by rewrite Htext.
Qed.

Lemma entries_after_fetch_status userId content now db aiResponse response db' :
  entries_after_fetch P userId content now db aiResponse = Some (response, db') →
  status response = 200%Z.
Proof.
  unfold entries_after_fetch. intros H.
  destruct aiResponse as [|[] data]; simplify_option_eq; done.
Qed.

(** Every run of [POST /entries] ends in one of four statuses, and 400 is
    only answered to empty content. *)
Lemma post_entries_status (c : Request) (now : Z) (db : D1Database) :
  ends_with (fun r => status r.1 = 200%Z ∨ status r.1 = 401%Z ∨ status r.1 = 500%Z
                      ∨ (status r.1 = 400%Z ∧ content_empty c))
            (post_entries P env c now db).
Proof.
  unfold post_entries, authMiddleware.
  destruct (Authorization c) as [authHeader|]; [|constructor; simpl; auto].
  destruct (String.prefix _ _); [|constructor; simpl; auto].
  destruct (verify _ _ _) as [userId|]; [|constructor; simpl; auto].
  destruct (JS.get (json c) "content") as [[content|]|] eqn:Hcontent;
    [| constructor; simpl; do 3 right; split; [done|]; intros v Hv; by simplify_eq
     | constructor; simpl; auto].
  destruct (JS.truthy content) eqn:Htruthy.
  - unfold entries_try. destruct (JS.ToString _); [|constructor; simpl; auto].
    constructor. intros result. constructor.
    destruct (entries_after_fetch _ _ _ _ _ _) as [[response db']|] eqn:Hafter; simpl.
    + left. by eapply entries_after_fetch_status.
    + auto.
  - constructor; simpl. do 3 right. split; [done|].
    intros v Hv. by simplify_eq.
Qed.

(** Status 400 is the answer to empty content and to nothing else. *)
Lemma bad_request_means_empty_content (c : Request) (now : Z) (db : D1Database)
    (net : list FetchResult) :
  status (run net (post_entries P env c now db)).1.1 = 400%Z → content_empty c.
Proof.
  intros Hstatus.
  pose proof (ends_with_run _ _ net (post_entries_status c now db)) as Hend.
  simpl in Hend. rewrite Hstatus in Hend.
  by destruct Hend as [[=] | [[=] | [[=] | [_ Hempty]]]].
Qed.

(** C5, as the code has it: a submission whose content is empty or absent
    ends without any call to the completion service and leaves the database
    as it was.  When the request is authenticated and its body is JSON other
    than [null], the answer is the validation error, 400
    [Content is required], and no submission is answered 400 for anything
    else; when the body is [null] or is not JSON, the answer is the 500 of
    the framework; when the request is not authenticated, it is 401. *)
Theorem empty_content_rejected (c : Request) (now : Z) (db : D1Database) :
  content_empty c →
  (∃ response,
     post_entries P env c now db = Ret (response, db)
     ∧ (∀ userId value,
          authenticated P env c userId → json c = Some value → value ≠ JNull →
          response = {| status := 400; body := ErrorJson "Content is required" |})
     ∧ (∀ userId,
          authenticated P env c userId → json c = None ∨ json c = Some JNull →
          response = {| status := 500; body := Text "Internal Server Error" |})
     ∧ ((∀ userId, ¬ authenticated P env c userId) → status response = 401%Z))
  ∧ ∀ (c' : Request) (now' : Z) (db' : D1Database) (net : list FetchResult),
      status (run net (post_entries P env c' now' db')).1.1 = 400%Z → content_empty c'.
Proof.
  intros Hempty. split; [|intros c' now' db' net; apply bad_request_means_empty_content].
  unfold post_entries.
  assert (Hbody : ∀ userId,
    (fun userId : Z =>
       match JS.get (json c) "content" with
       | Some (Some content) =>
           if JS.truthy content
           then entries_try P env userId content now db
           else Ret (json_error "Content is required" 400, db)
       | Some None => Ret (json_error "Content is required" 400, db)
       | None => Ret (internal_server_error, db)
       end) userId
    = Ret (match JS.get (json c) "content" with
           | Some _ => json_error "Content is required" 400
           | None => internal_server_error
           end, db)).
  { intros userId. simpl. destruct (JS.get (json c) "content") as [content|] eqn:Hget; [|done].
    destruct content as [content|]; [|done]. by rewrite (Hempty content). }
  unfold authMiddleware.
  destruct (Authorization c) as [authHeader|] eqn:Hheader.
  2:{ eexists; split; [done|].
      repeat split; try (intros userId; intros; exfalso); try done;
        match goal with H : authenticated _ _ _ _ |- _ => destruct H as (token & ? & _) end;
        congruence. }
  destruct (String.prefix "Bearer " authHeader) eqn:Hprefix.
  2:{ eexists; split; [done|].
      repeat split; try (intros userId; intros; exfalso); try done;
        match goal with H : authenticated _ _ _ _ |- _ => destruct H as (token & ? & _) end;
        simplify_eq; by rewrite prefix_append in Hprefix. }
  destruct (verify P _ _) as [userId|] eqn:Hverify.
  2:{ eexists; split; [done|].
      repeat split; try (intros userId; intros; exfalso); try done;
        match goal with H : authenticated _ _ _ _ |- _ => destruct H as (token & ? & ?) end;
        simplify_eq; change 7%nat with (String.length "Bearer ") in Hverify;
        rewrite substring_from_append in Hverify; congruence. }
  rewrite Hbody. eexists; split; [done|].
  split; [|split].
  - intros _ value _ Hjson Hvalue. rewrite Hjson. by destruct value.
  - intros _ _ [Hjson | Hjson]; by rewrite Hjson.
  - intros Hnone. exfalso. apply (Hnone userId). unfold authenticated. rewrite Hheader.
    exists (substring_from 7 authHeader). split; [|done]. f_equal.
    clear -Hprefix. revert Hprefix.
    change 7%nat with (String.length "Bearer "). generalize "Bearer ". intros p.
    revert authHeader. induction p as [|a p IH]; intros s; [done|].
    destruct s as [|b s]; [done|]. simpl.
    destruct (ascii_dec a b) as [<-|]; [|done].
    intros Hprefix. change (String a p +:+ ?t) with (String a (p +:+ t)).
    f_equal. by apply IH.
Qed.

(** C1: an authenticated submission with non-empty content, answered by the
    completion service with a body whose first content element has the text
    [text], makes exactly one call, appends exactly one Entry row whose
    [aiResponse] is [text] (and touches no other table), and answers 200
    with that row under [entry] and [text] under [recommendation]. *)
Theorem entry_submission_persists (c : Request) (now : Z) (db : D1Database)
    (net : list FetchResult) userId content aiData text :
  authenticated P env c userId →
  DB.user_exists db userId = true →
  JS.get (json c) "content" = Some (Some (JStr content)) →
  content ≠ "" →
  completion_text aiData text →
  ∃ rq newEntry db',
    run (HttpResponse true (Some aiData) :: net) (post_entries P env c now db)
    = ({| status := 200; body := EntryJson newEntry (Some (JStr text)) |}, db', [rq])
    ∧ userEntries db' = (userEntries db ++ [newEntry])%list
    ∧ users db' = users db
    ∧ userContext db' = userContext db
    ∧ schema.userEntries.userId newEntry = userId
    ∧ schema.userEntries.content newEntry = content
    ∧ schema.userEntries.aiResponse newEntry = Some text.
Proof.
  intros Hauth Hexists Hcontent Hnonempty (data & first & more & -> & Hdata & Hfirst).
  rewrite (post_entries_fetch c now db userId (JStr content) content Hauth Hcontent); [|..|done].
  2:{ simpl. by apply negb_true_iff, String.eqb_neq. }
  simpl. unfold recommendation_of. simpl. rewrite Hdata. simpl. rewrite Hfirst. simpl.
  rewrite Hexists. simpl.
  by eexists _, _, _.
Qed.

Lemma no_first_content_throws (aiData : JSON) :
  first_content aiData = None ∨ first_content aiData = Some JNull →
  recommendation_of aiData = None.
Proof.
  unfold first_content, recommendation_of.
  destruct (JS.get (Some aiData) "content") as [content|]; simpl; [|done].
  destruct (JS.get0 content) as [[first|]|]; simpl; [|done..].
  by intros [[=]|[= ->]].
Qed.

Lemma upstream_failure_throws userId content now db result :
  upstream_failure result → entries_after_fetch P userId content now db result = None.
Proof.
  destruct 1 as [|data|ok|ok aiData Hfirst]; simpl; [done|done|by destruct ok|].
  destruct ok; [|done]. simpl. by rewrite no_first_content_throws.
Qed.

(** On any platform, an answer whose first content element is there but
    has no [text] is stored as an entry with no AI response. *)
Lemma textless_answer_is_stored (c : Request) (now : Z) (db : D1Database)
    (net : list FetchResult) userId content aiData :
  authenticated P env c userId →
  DB.user_exists db userId = true →
  JS.get (json c) "content" = Some (Some (JStr content)) →
  content ≠ "" →
  recommendation_of aiData = Some None →
  ∃ rq newEntry,
    run (HttpResponse true (Some aiData) :: net) (post_entries P env c now db)
    = ({| status := 200; body := EntryJson newEntry None |},
       mkDB (users db) (userEntries db ++ [newEntry]) (userContext db)
            (seq_users db) (seq_userEntries db + 1) (seq_userContext db),
       [rq])
    ∧ schema.userEntries.aiResponse newEntry = None.
Proof.
  intros Hauth Hexists Hcontent Hnonempty Htextless.
  rewrite (post_entries_fetch c now db userId (JStr content) content Hauth Hcontent); [|..|done].
  2:{ simpl. by apply negb_true_iff, String.eqb_neq. }
  simpl. rewrite Htextless. simpl. rewrite Hexists. simpl.
  by eexists _, _.
Qed.

(** An answer with a text is none of these failures. *)
Lemma completion_is_no_failure (aiData : JSON) (text : string) :
  completion_text aiData text → ¬ upstream_failure (HttpResponse true (Some aiData)).
Proof.
  intros (data & first & more & -> & Hdata & _) Hfailure.
  inversion Hfailure as [| | |ok aiData Hfirst]; subst.
  unfold first_content in Hfirst. simpl in Hfirst. rewrite Hdata in Hfirst.
  simpl in Hfirst. by destruct Hfirst.
Qed.

(** A run that ends before the service is called: the database is as it
    was and the status is one of the failures. *)
Ltac ended_early :=
  eexists _, _; simpl; split; [reflexivity|];
  split; [first [by left | by right; left | by do 2 right]|];
  split; [simpl; lia | by intros ? ? ?].

(** C2, as the code has it: when the completion call fails (the network
    fails, the status is not a success, the body is not JSON, or the body has
    no first content element) the run ends with the database as it was and a
    failure status, after at most one call; a run that reached the service
    answers the 500 of [POST /entries] and has sent exactly that one request. *)
Theorem upstream_failure_no_write (c : Request) (now : Z) (db : D1Database)
    (net : list FetchResult) (result : FetchResult) :
  upstream_failure result →
  ∃ response sent,
    run (result :: net) (post_entries P env c now db) = (response, db, sent)
    ∧ (status response = 400%Z ∨ status response = 401%Z ∨ status response = 500%Z)
    ∧ (length sent ≤ 1)%nat
    ∧ (∀ rq k, post_entries P env c now db = Fetch rq k →
       response = json_error "Failed to generate recommendation" 500 ∧ sent = [rq]).
Proof.
  intros Hfailure. unfold post_entries, authMiddleware.
  destruct (Authorization c) as [authHeader|];
    [|ended_early].
  destruct (String.prefix _ _);
    [|ended_early].
  destruct (verify _ _ _) as [userId|];
    [|ended_early].
  destruct (JS.get (json c) "content") as [[content|]|];
    [|ended_early..].
  destruct (JS.truthy content);
    [|ended_early].
  unfold entries_try. destruct (JS.ToString _) as [text|];
    [|ended_early].
  simpl. rewrite (upstream_failure_throws _ _ _ _ _ Hfailure). simpl.
  eexists _, _. split; [done|]. split; [simpl; auto|]. split; [simpl; lia|].
  intros rq k [= <- _]. done.
Qed.

Lemma append_nonempty (s t : string) : s ≠ "" → s +:+ t ≠ "".
Proof. by destruct s. Qed.

Lemma join_cons_nonempty (sep x : string) (l : list string) :
  x ≠ "" → JS.join sep (x :: l) ≠ "".
Proof.
  intros Hx. unfold JS.join. simpl. destruct l; [done|].
  by apply append_nonempty.
Qed.

Lemma or_string_nonempty (s d : string) : s ≠ "" → JS.or_string (Some s) d = s.
Proof. intros Hs. unfold JS.or_string. by apply String.eqb_neq in Hs as ->. Qed.

Lemma fact_pair_nonempty fact : fact_pair fact ≠ "".
Proof. unfold fact_pair. by destruct (schema.userContext.contextKey fact). Qed.

Lemma entry_block_nonempty entry : entry_block entry ≠ "".
Proof. done. Qed.

(** The fallback of the context line is used exactly when there is no fact. *)
Lemma context_or_fallback facts :
  JS.or_string (Some (contextString facts)) "No specific context available"
  = spec_context facts.
Proof.
  destruct facts as [|fact facts]; [done|].
  apply or_string_nonempty, join_cons_nonempty, fact_pair_nonempty.
Qed.

Lemma take_min_length {A} (l : list A) (n : nat) : take (length l `min` n) l = take n l.
Proof.
  destruct (decide (n ≤ length l)%nat) as [Hle|Hgt].
  - by rewrite Nat.min_r.
  - rewrite Nat.min_l by lia. by rewrite firstn_all, take_ge by lia.
Qed.

(** The fallback of the history is used exactly when there is no entry. *)
Lemma history_or_fallback entries :
  JS.or_string (Some (historyString (take 5 entries))) "No previous conversations"
  = spec_history entries.
Proof.
  destruct entries as [|entry entries]; [done|].
  unfold spec_history. rewrite take_min_length. simpl.
  apply or_string_nonempty, join_cons_nonempty, entry_block_nonempty.
Qed.

Lemma aiPrompt_spec facts entries text :
  aiPrompt (contextString facts) (historyString (take 5 entries)) text
  = spec_prompt facts entries text.
Proof.
  unfold aiPrompt. rewrite context_or_fallback, history_or_fallback. reflexivity.
Qed.

(** C3: the prompt sent for a user is the fixed text around (1) the user's
    facts, all of them, in table order, joined as [key: value] pairs with a
    comma and a space, or the fallback when there is none, and (2) the
    min(M,5) newest of the user's M entries, newest first, joined as
    [User: ... / AI: ...] blocks with a blank line, or the fallback when
    there is none; with five entries or more there are exactly five blocks. *)
Theorem prompt_context_assembled (c : Request) (now : Z) (db : D1Database)
    userId content text :
  authenticated P env c userId →
  JS.get (json c) "content" = Some (Some content) →
  JS.truthy content = true →
  JS.ToString content = Some text →
  (∃ k, post_entries P env c now db
        = Fetch (messages_request env
                   (spec_prompt (DB.context_of db userId) (DB.entries_of db userId) text)) k)
  ∧ DB.context_of db userId
    = filter (fun fact => schema.userContext.userId fact = userId) (userContext db)
  ∧ DB.entries_of db userId
    ≡ₚ filter (fun entry => schema.userEntries.userId entry = userId) (userEntries db)
  ∧ StronglySorted (newer_first schema.userEntries.createdAt) (DB.entries_of db userId)
  ∧ length (entry_block <$> take (length (DB.entries_of db userId) `min` 5)
                                 (DB.entries_of db userId))
    = (length (DB.entries_of db userId) `min` 5)%nat
  ∧ ((5 ≤ length (DB.entries_of db userId))%nat →
     length (entry_block <$> take (length (DB.entries_of db userId) `min` 5)
                                  (DB.entries_of db userId)) = 5%nat).
Proof.
  intros Hauth Hcontent Htruthy Htext.
  split.
  { eexists. rewrite (post_entries_fetch c now db userId content text) by done.
    by rewrite aiPrompt_spec. }
  split; [done|].
  split; [apply orderBy_desc_perm|].
  split; [apply orderBy_desc_sorted|].
  rewrite length_fmap, length_take.
  split; lia.
Qed.

End Entries.

Lemma empty_content_rejected_witness :
  content_empty (Demo.post (JStr ""))
  ∧ post_entries Demo.platform Demo.env (Demo.post (JStr "")) 140 Demo.db
    = Ret ({| status := 400; body := ErrorJson "Content is required" |}, Demo.db).
Proof.
  assert (Hempty : content_empty (Demo.post (JStr "")))
    by (intros content [= <-]; reflexivity).
  split; [exact Hempty|].
  destruct (empty_content_rejected Demo.platform Demo.env (Demo.post (JStr "")) 140 Demo.db
              Hempty) as [(response & Hrun & Hbad & _) _].
  rewrite Hrun. do 2 f_equal.
  apply (Hbad 1%Z (JObj [("content", JStr "")])); [by exists "s3cret:1" | done | done].
Defined.

(** C5 as stated fails: an authenticated submission whose body is [null] has
    no content, yet it is not answered with the validation error but with
    the 500 of the framework, the status a failed completion is answered
    with as well. *)
Lemma null_body_is_no_validation_error :
  content_empty (Demo.request Demo.bearer [] (Some JNull))
  ∧ run [] (post_entries Demo.platform Demo.env
              (Demo.request Demo.bearer [] (Some JNull)) 140 Demo.db)
    = ({| status := 500; body := Text "Internal Server Error" |}, Demo.db, [])
  ∧ (run [NetworkFailure]
         (post_entries Demo.platform Demo.env (Demo.post (JStr "I feel sad")) 140 Demo.db)).1
    = ({| status := 500; body := ErrorJson "Failed to generate recommendation" |}, Demo.db).
Proof.
  split; [|split].
  - intros content Hcontent. discriminate Hcontent.
  - by vm_compute.
  - by vm_compute.
Qed.

Lemma demo_authenticated (query : list (string * string)) (json : option JSON) :
  authenticated Demo.platform Demo.env (Demo.request Demo.bearer query json) 1.
Proof. by exists "s3cret:1". Defined.

Lemma demo_completion_text (text : string) : completion_text (Demo.completion text) text.
Proof. by eexists _, _, _. Defined.

Lemma entry_submission_persists_witness :
  authenticated Demo.platform Demo.env (Demo.post (JStr "I feel sad")) 1
  ∧ DB.user_exists Demo.db 1 = true
  ∧ completion_text (Demo.completion "Take a walk") "Take a walk"
  ∧ ∃ rq newEntry db',
      run [HttpResponse true (Some (Demo.completion "Take a walk"))]
          (post_entries Demo.platform Demo.env (Demo.post (JStr "I feel sad")) 140 Demo.db)
      = ({| status := 200; body := EntryJson newEntry (Some (JStr "Take a walk")) |}, db', [rq])
      ∧ userEntries db' = (userEntries Demo.db ++ [newEntry])%list
      ∧ users db' = users Demo.db
      ∧ userContext db' = userContext Demo.db
      ∧ schema.userEntries.userId newEntry = 1%Z
      ∧ schema.userEntries.content newEntry = "I feel sad"
      ∧ schema.userEntries.aiResponse newEntry = Some "Take a walk".
Proof.
  split; [apply demo_authenticated|]. split; [reflexivity|].
  split; [apply demo_completion_text|].
  apply (entry_submission_persists Demo.platform Demo.env (Demo.post (JStr "I feel sad")) 140
           Demo.db [] 1 "I feel sad" (Demo.completion "Take a walk") "Take a walk").
  - apply demo_authenticated.
  - reflexivity.
  - reflexivity.
  - discriminate.
  - apply demo_completion_text.
Defined.

Lemma upstream_failure_no_write_witness :
  upstream_failure (HttpResponse false (Some (Demo.completion "Take a walk")))
  ∧ ∃ response sent,
      run [HttpResponse false (Some (Demo.completion "Take a walk"))]
          (post_entries Demo.platform Demo.env (Demo.post (JStr "I feel sad")) 140 Demo.db)
      = (response, Demo.db, sent)
      ∧ (status response = 400%Z ∨ status response = 401%Z ∨ status response = 500%Z)
      ∧ (length sent ≤ 1)%nat
      ∧ (∀ rq k,
           post_entries Demo.platform Demo.env (Demo.post (JStr "I feel sad")) 140 Demo.db
           = Fetch rq k →
           response = json_error "Failed to generate recommendation" 500 ∧ sent = [rq]).
Proof.
  split; [constructor|].
  apply (upstream_failure_no_write Demo.platform Demo.env (Demo.post (JStr "I feel sad")) 140
           Demo.db [] (HttpResponse false (Some (Demo.completion "Take a walk")))).
  constructor.
Defined.

(** C2 as stated fails: a body whose first content element has no text is a
    malformed answer, yet it is not treated as a failure: an Entry row with
    no AI response is inserted and the caller is answered 200. *)
Lemma textless_completion_is_stored :
  (∀ text, ¬ completion_text Demo.textless text)
  ∧ run [HttpResponse true (Some Demo.textless)]
        (post_entries Demo.platform Demo.env (Demo.post (JStr "I feel sad")) 140 Demo.db)
    = ({| status := 200;
          body := EntryJson (schema.userEntries.mk 4 1 "I feel sad" None 140) None |},
       mkDB (users Demo.db)
            (userEntries Demo.db ++ [schema.userEntries.mk 4 1 "I feel sad" None 140])
            (userContext Demo.db) 1 4 1,
       [messages_request Demo.env
          (spec_prompt (DB.context_of Demo.db 1) (DB.entries_of Demo.db 1) "I feel sad")]).
Proof.
  split; [|reflexivity].
  intros text (data & first & more & [= <-] & [= <- <-] & Htext). discriminate.
Qed.

Lemma prompt_context_assembled_witness :
  authenticated Demo.platform Demo.env (Demo.post (JStr "I feel sad")) 1
  ∧ (∃ k, post_entries Demo.platform Demo.env (Demo.post (JStr "I feel sad")) 140 Demo.db
          = Fetch (messages_request Demo.env
                     (spec_prompt (DB.context_of Demo.db 1) (DB.entries_of Demo.db 1)
                                  "I feel sad")) k)
  ∧ spec_context (DB.context_of Demo.db 1) = "goal: rest"
  ∧ spec_history (DB.entries_of Demo.db 1)
    = "User: third" +:+ nl +:+ "AI: three" +:+ nl +:+ nl
      +:+ "User: second" +:+ nl +:+ "AI: two" +:+ nl +:+ nl
      +:+ "User: first" +:+ nl +:+ "AI: one".
Proof.
  split; [apply demo_authenticated|].
  split; [|split; reflexivity].
  apply (prompt_context_assembled Demo.platform Demo.env (Demo.post (JStr "I feel sad")) 140
           Demo.db 1 (JStr "I feel sad") "I feel sad").
  - apply demo_authenticated.
  - reflexivity.
  - reflexivity.
  - reflexivity.
Defined.

(** ** Login *)

Section Login.

Context (P : Platform) (env : Bindings).

Lemma get_total (v : option JSON) (k k' : string) :
  is_Some (JS.get v k) → is_Some (JS.get v k').
Proof. destruct v as [[]|]; simpl; intros [? ?]; by simplify_eq. Qed.

Lemma head_filter_email_None (e : string) (l : list schema.users.row) :
  head (filter (fun u => schema.users.email u = e) l) = None →
  e ∉ schema.users.email <$> l.
Proof.
  induction l as [|u l IH]; simpl; [intros _; apply not_elem_of_nil|].
  rewrite filter_cons. destruct (decide (schema.users.email u = e)) as [Heq|Hne]; [done|].
  intros Hhead. apply not_elem_of_cons. split; [done|by apply IH].
Qed.

Lemma head_filter_email_Some (e : string) (l : list schema.users.row) user :
  head (filter (fun u => schema.users.email u = e) l) = Some user →
  schema.users.email user = e ∧ e ∈ schema.users.email <$> l.
Proof.
  intros Hhead. apply head_Some_elem_of, list_elem_of_filter in Hhead as [Heq Hin].
  split; [done|]. rewrite <- Heq. by apply list_elem_of_fmap_2.
Qed.

Lemma login_try_known (email : string) name now db user :
  head (filter (fun u => schema.users.email u = email) (users db)) = Some user →
  login_try P env (JStr email) name now db = Some (login_ok P env user, db).
Proof. intros Hhead. unfold login_try. simpl. by rewrite Hhead. Qed.

Lemma login_known (c : Request) now db email user :
  JS.get (json c) "email" = Some (Some (JStr email)) →
  email ≠ "" →
  head (filter (fun u => schema.users.email u = email) (users db)) = Some user →
  post_auth_login P env c now db = (login_ok P env user, db).
Proof.
  intros Hemail Hnonempty Hhead. unfold post_auth_login. rewrite Hemail.
  destruct (get_total (json c) "email" "name") as [name ->]; [by rewrite Hemail|].
  simpl. apply String.eqb_neq in Hnonempty as ->. simpl.
  by rewrite (login_try_known email name now db user Hhead).
Qed.

(** C6: logging in twice with the same non-empty email (the first time with
    no name or a text name) answers both times with the same user, hence the
    same id and the same token; the first login adds the user's row only when
    the email was not stored, and the second login writes nothing. *)
Theorem login_twice_same_user (c1 c2 : Request) (now1 now2 : Z) (db : D1Database)
    (email : string) (name1 : option JSON) :
  JS.get (json c1) "email" = Some (Some (JStr email)) →
  JS.get (json c2) "email" = Some (Some (JStr email)) →
  email ≠ "" →
  JS.get (json c1) "name" = Some name1 →
  name1 = None ∨ (∃ text, name1 = Some (JStr text)) →
  ∃ user db1,
    post_auth_login P env c1 now1 db = (login_ok P env user, db1)
    ∧ post_auth_login P env c2 now2 db1 = (login_ok P env user, db1)
    ∧ schema.users.email user = email
    ∧ (email ∈ schema.users.email <$> users db → db1 = db)
    ∧ (email ∉ schema.users.email <$> users db →
       users db1 = (users db ++ [user])%list
       ∧ userEntries db1 = userEntries db ∧ userContext db1 = userContext db).
Proof.
  intros Hemail1 Hemail2 Hnonempty Hname1 Htext.
  destruct (head (filter (fun u => schema.users.email u = email) (users db)))
    as [user|] eqn:Hhead.
  - exists user, db.
    destruct (head_filter_email_Some _ _ _ Hhead) as [Heq Hin].
    rewrite !(login_known _ _ db email user) by done.
    repeat split; done.
  - pose proof (head_filter_email_None _ _ Hhead) as Hfresh.
    assert (∃ n, bind P (or_null name1) = Some n) as [n Hn].
    { destruct Htext as [-> | [text ->]]; simpl; [by eexists|].
      destruct (negb _); by eexists. }
    set (user := schema.users.mk (seq_users db + 1) email n now1 now1).
    set (db1 := mkDB (users db ++ [user])%list (userEntries db) (userContext db)
                     (seq_users db + 1) (seq_userEntries db) (seq_userContext db)).
    exists user, db1.
    assert (Hfirst : post_auth_login P env c1 now1 db = (login_ok P env user, db1)).
    { unfold post_auth_login. rewrite Hemail1, Hname1. simpl.
      apply String.eqb_neq in Hnonempty as ->. simpl.
      unfold login_try. simpl. rewrite Hhead. simpl. rewrite Hn. simpl.
      unfold DB.insert_users. by rewrite bool_decide_eq_false_2. }
    split; [done|]. split.
    { apply (login_known c2 now2 db1 email user); [done..|].
      simpl. rewrite filter_app.
      destruct (filter _ (users db)) as [|u l]; [|done].
      rewrite filter_cons. simpl. by rewrite decide_True. }
    repeat split; done.
Qed.

End Login.

Lemma login_twice_same_user_witness :
  ∃ user db1,
    post_auth_login Demo.platform Demo.env (Demo.login "bob@example.org" (Some "Bob")) 150 Demo.db
    = (login_ok Demo.platform Demo.env user, db1)
    ∧ post_auth_login Demo.platform Demo.env (Demo.login "bob@example.org" None) 160 db1
      = (login_ok Demo.platform Demo.env user, db1)
    ∧ schema.users.email user = "bob@example.org"
    ∧ ("bob@example.org" ∈ schema.users.email <$> users Demo.db → db1 = Demo.db)
    ∧ ("bob@example.org" ∉ schema.users.email <$> users Demo.db →
       users db1 = (users Demo.db ++ [user])%list
       ∧ userEntries db1 = userEntries Demo.db ∧ userContext db1 = userContext Demo.db).
Proof.
  apply (login_twice_same_user Demo.platform Demo.env
           (Demo.login "bob@example.org" (Some "Bob")) (Demo.login "bob@example.org" None)
           150 160 Demo.db "bob@example.org" (Some (JStr "Bob"))).
  - reflexivity.
  - reflexivity.
  - discriminate.
  - reflexivity.
  - right. by exists "Bob".
Defined.

(** ** History *)

Section History.

Context (P : Platform) (env : Bindings).

Lemma limit_take {A} (n : Z) (rows : list A) : DB.limit n rows = take (Z.to_nat n) rows.
Proof.
  revert n. induction rows as [|row rows IH]; intros n; simpl; [by destruct (Z.to_nat n)|].
  destruct (Z.ltb_spec 0 n) as [Hpos|Hneg].
  - rewrite IH. replace (Z.to_nat n) with (S (Z.to_nat (n - 1))) by lia. done.
  - by replace (Z.to_nat n) with 0%nat by lia.
Qed.

Lemma offset_drop {A} (n : Z) (rows : list A) : DB.offset n rows = drop (Z.to_nat n) rows.
Proof.
  revert n. induction rows as [|row rows IH]; intros n; simpl; [by destruct (Z.to_nat n)|].
  destruct (Z.ltb_spec 0 n) as [Hpos|Hneg].
  - rewrite IH. replace (Z.to_nat n) with (S (Z.to_nat (n - 1))) by lia. done.
  - by replace (Z.to_nat n) with 0%nat by lia.
Qed.

(** A count is an integer from 0 to [2^53 - 1]. *)
Lemma count_range (x : Number.Double) (n : Z) :
  Number.count x = Some n → (0 ≤ n ≤ Number.MAX_SAFE_INTEGER)%Z.
Proof.
  unfold Number.count. destruct x as [| |[] m e]; try done.
  destruct (Number.integer (Number.Finite false m e)) as [i|] eqn:Hinteger; simpl; [|done].
  destruct (Z.leb_spec i Number.MAX_SAFE_INTEGER) as [Hsafe|]; intros [= <-].
  split; [|done]. unfold Number.integer in Hinteger.
  assert (0 ≤ Z.of_N m)%Z as Hm by lia.
  destruct (Z.leb_spec 0 e) as [He|He].
  - injection Hinteger as <-.
    assert (0 ≤ 2 ^ e)%Z by (by apply Z.pow_nonneg). nia.
  - destruct (Z.eqb_spec (Z.of_N m mod 2 ^ (- e)) 0); [|done].
    injection Hinteger as <-.
    assert (0 ≤ Z.of_N m / 2 ^ (- e))%Z
      by (apply Z.div_pos; [done|apply Z.pow_pos_nonneg; lia]).
    lia.
Qed.

Lemma default_limit : Number.count (JS.parseInt "20") = Some 20%Z.
Proof. by vm_compute. Qed.

Lemma default_offset : Number.count (JS.parseInt "0") = Some 0%Z.
Proof. by vm_compute. Qed.

(** [GET /entries] when [limit] and [offset] read as counts. *)
Lemma get_entries_counts (c : Request) (db : D1Database) userId (l o : Z) :
  authenticated P env c userId →
  Number.count (JS.parseInt (JS.or_string (req_query c "limit") "20")) = Some l →
  Number.count (JS.parseInt (JS.or_string (req_query c "offset") "0")) = Some o →
  get_entries P env c db
  = Ret ({| status := 200;
            body := EntriesJson (take (Z.to_nat l) (drop (Z.to_nat o)
                                   (DB.entries_of db userId))) |}, db).
Proof.
  intros Hauth Hlimit Hoffset.
  unfold get_entries. rewrite (authMiddleware_next P env c db _ userId Hauth).
  cbv zeta. unfold page. rewrite Hlimit, Hoffset.
  by rewrite limit_take, offset_drop.
Qed.

(** C7: for an authenticated user, with [limit] and [offset] that read as
    counts (integers from 0 to [2^53 - 1]; 20 and 0 when absent),
    [GET /entries] answers the user's entries ordered newest first, with the
    first [offset] of them skipped and at most [limit] of the rest; with
    [limit=2&offset=1] and three entries or more, these are exactly the
    second and the third newest. *)
Theorem entries_page (c : Request) (db : D1Database) userId (l o : Z) :
  authenticated P env c userId →
  Number.count (JS.parseInt (JS.or_string (req_query c "limit") "20")) = Some l →
  Number.count (JS.parseInt (JS.or_string (req_query c "offset") "0")) = Some o →
  ∃ rows,
    get_entries P env c db = Ret ({| status := 200; body := EntriesJson rows |}, db)
    ∧ rows = take (Z.to_nat l) (drop (Z.to_nat o) (DB.entries_of db userId))
    ∧ (Z.of_nat (length rows) ≤ l)%Z
    ∧ StronglySorted (newer_first schema.userEntries.createdAt) (DB.entries_of db userId)
    ∧ DB.entries_of db userId
      ≡ₚ filter (fun entry => schema.userEntries.userId entry = userId) (userEntries db)
    ∧ (req_query c "limit" = None → l = 20%Z)
    ∧ (req_query c "offset" = None → o = 0%Z)
    ∧ (l = 2%Z → o = 1%Z → (3 ≤ length (DB.entries_of db userId))%nat →
       ∃ newest second third older,
         DB.entries_of db userId = newest :: second :: third :: older
         ∧ rows = [second; third]).
Proof.
  intros Hauth Hlimit Hoffset.
  pose proof (count_range _ _ Hlimit) as Hl.
  exists (take (Z.to_nat l) (drop (Z.to_nat o) (DB.entries_of db userId))).
  split; [by apply get_entries_counts|].
  split; [done|].
  split; [rewrite length_take; lia|].
  split; [apply orderBy_desc_sorted|].
  split; [apply orderBy_desc_perm|].
  split.
  { intros Habsent. rewrite Habsent in Hlimit.
    change (JS.or_string None "20") with "20" in Hlimit.
    rewrite default_limit in Hlimit. by injection Hlimit. }
  split.
  { intros Habsent. rewrite Habsent in Hoffset.
    change (JS.or_string None "0") with "0" in Hoffset.
    rewrite default_offset in Hoffset. by injection Hoffset. }
  intros -> -> Hthree.
  destruct (DB.entries_of db userId) as [|newest [|second [|third older]]];
    simpl in Hthree; try lia.
  by exists newest, second, third, older.
Qed.

End History.

Lemma entries_page_witness :
  authenticated Demo.platform Demo.env
    (Demo.request Demo.bearer [("limit", "2"); ("offset", "1")] None) 1
  ∧ ∃ rows,
      get_entries Demo.platform Demo.env
        (Demo.request Demo.bearer [("limit", "2"); ("offset", "1")] None) Demo.db
      = Ret ({| status := 200; body := EntriesJson rows |}, Demo.db)
      ∧ rows = [Demo.entry 2 120 "second" "two"; Demo.entry 1 110 "first" "one"].
Proof.
  split; [apply demo_authenticated|].
  destruct (entries_page Demo.platform Demo.env
              (Demo.request Demo.bearer [("limit", "2"); ("offset", "1")] None) Demo.db 1 2 1)
    as (rows & Hget & Hrows & _).
  - apply demo_authenticated.
  - by vm_compute.
  - by vm_compute.
  - exists rows. split; [exact Hget|]. rewrite Hrows. reflexivity.
Defined.

(** ** Entries are only ever appended *)

Section Immutable.

Context (P : Platform) (env : Bindings).

Lemma authMiddleware_ends_with {A} (Q : Response * A → Prop) (c : Request) (db : A) next :
  (∀ response, Q (response, db)) →
  (∀ userId, ends_with Q (next userId)) →
  ends_with Q (authMiddleware P env c db next).
Proof.
  intros Hrefused Hnext. unfold authMiddleware.
  destruct (Authorization c); [|by constructor].
  destruct (String.prefix _ _); [|by constructor].
  destruct (verify _ _ _); [done|by constructor].
Qed.

Lemma login_try_entries email name now db response db' :
  login_try P env email name now db = Some (response, db') →
  userEntries db' = userEntries db.
Proof.
  unfold login_try. intros Htry.
  destruct (bind P email) as [e|]; simpl in Htry; [|done].
  destruct (head _) as [user|]; simpl in Htry; [by simplify_eq|].
  destruct (bind P (or_null name)) as [n|]; simpl in Htry; [|done].
  unfold DB.insert_users in Htry. destruct e as [e|]; simpl in Htry; [|done].
  case_bool_decide; simpl in Htry; by simplify_eq.
Qed.

Lemma post_auth_login_extends c now db : extends db (post_auth_login P env c now db).
Proof.
  unfold extends, post_auth_login.
  destruct (JS.get (json c) "email") as [[email|]|], (JS.get (json c) "name") as [name|];
    simpl; try done.
  destruct (JS.truthy email); [|done].
  destruct (login_try _ _ _ _ _ _) as [[response db']|] eqn:Htry; simpl; [|done].
  by rewrite (login_try_entries _ _ _ _ _ _ Htry).
Qed.

Lemma extends_same db response : extends db (response, db).
Proof. by unfold extends. Qed.

(** Goals about a step that leaves the database as it was. *)
Ltac unchanged :=
  intros; first [apply extends_same | constructor; apply extends_same].

Lemma entries_after_fetch_entries userId content now db result response db' :
  entries_after_fetch P userId content now db result = Some (response, db') →
  ∃ entry, userEntries db' = (userEntries db ++ [entry])%list.
Proof.
  unfold entries_after_fetch, DB.insert_userEntries. intros Hafter.
  destruct result as [|[] data]; try done.
  repeat (simplify_option_eq || case_match); by eexists.
Qed.

Lemma post_entries_extends c now db : ends_with (extends db) (post_entries P env c now db).
Proof.
  apply authMiddleware_ends_with; [unchanged|]. intros userId.
  destruct (JS.get (json c) "content") as [[content|]|]; [|unchanged..].
  destruct (JS.truthy content); [|unchanged].
  unfold entries_try. destruct (JS.ToString _); [|unchanged].
  constructor. intros result. constructor.
  destruct (entries_after_fetch _ _ _ _ _ _) as [[response db']|] eqn:Hafter; simpl;
    [|unchanged].
  apply entries_after_fetch_entries in Hafter as [entry Hentry].
  unfold extends. simpl. rewrite Hentry. by apply prefix_app_r.
Qed.

Lemma insert_userContext_entries db values now db' :
  DB.insert_userContext db values now = Some db' → userEntries db' = userEntries db.
Proof. unfold DB.insert_userContext. intros H. by simplify_option_eq. Qed.

Lemma profile_insert_entries userId contextUpdates now db db' :
  profile_insert P userId contextUpdates now db = Some db' →
  userEntries db' = userEntries db.
Proof.
  unfold profile_insert. intros Hinsert.
  destruct (contextEntries userId contextUpdates) as [rows|]; simpl in Hinsert; [|done].
  case_bool_decide; [|by simplify_eq].
  destruct (mapM _ rows) as [values|]; simpl in Hinsert; [|done].
  by rewrite (insert_userContext_entries _ _ _ _ Hinsert).
Qed.

Lemma put_profile_extends c now db : ends_with (extends db) (put_profile P env c now db).
Proof.
  apply authMiddleware_ends_with; [unchanged|]. intros userId.
  destruct (json c) as [contextUpdates|]; [|unchanged]. cbv zeta.
  destruct (profile_insert P userId contextUpdates now (DB.delete_userContext db userId))
    as [db'|] eqn:Hinsert; constructor; unfold extends; simpl; [|done].
  by rewrite (profile_insert_entries _ _ _ _ _ Hinsert).
Qed.

Lemma handle_extends route c now db : ends_with (extends db) (handle P env route c now db).
Proof.
  destruct route; simpl.
  - unchanged.
  - constructor. apply post_auth_login_extends.
  - apply post_entries_extends.
  - apply authMiddleware_ends_with; [unchanged|]. intros userId.
    cbv zeta. destruct (page P _ _ _); unchanged.
  - apply authMiddleware_ends_with; [unchanged|]. intros userId.
    cbv zeta. destruct (group_context _); [|unchanged].
    destruct (head (filter _ (users db))); unchanged.
  - apply put_profile_extends.
  - unchanged.
Qed.

(** C9: whatever requests are served, in whatever order and with whatever
    answers from the network, the table of entries of the state they are
    served from is a prefix of the table afterwards: every Entry row is still
    there, at its place and with the same fields, and rows are only added. *)
Theorem entries_immutable (calls : list Call) (db : D1Database) :
  userEntries db `prefix_of` userEntries (serve_all P env calls db)
  ∧ ∀ i entry, userEntries db !! i = Some entry →
               userEntries (serve_all P env calls db) !! i = Some entry.
Proof.
  assert (Hprefix : userEntries db `prefix_of` userEntries (serve_all P env calls db)).
  { revert db. induction calls as [|call calls IH]; intros db; simpl; [done|].
    etrans; [|apply IH].
    apply (ends_with_run (extends db) _ (network call)), handle_extends. }
  split; [done|].
  intros i entry Hi. by eapply prefix_lookup_Some.
Qed.

End Immutable.

(** ** Profile context *)

Section Profile.

Context (P : Platform) (env : Bindings).

Lemma mapM_app_Some {A B} (f : A → option B) (l1 l2 : list A) (k1 k2 : list B) :
  mapM f l1 = Some k1 → mapM f l2 = Some k2 → mapM f (l1 ++ l2)%list = Some (k1 ++ k2)%list.
Proof. rewrite !mapM_Some. apply Forall2_app. Qed.

Lemma context_entries_of_submitted userId kv chunk :
  submitted kv = Some chunk →
  ∃ entries, context_entries_of userId kv = Some entries
             ∧ mapM (bind_row P) entries = Some (bound userId <$> chunk)
             ∧ (JS.isArray kv.2 = false → ∃ text, JS.ToString kv.2 = Some text
                                                  ∧ chunk = [(kv.1, text)]).
Proof.
  destruct kv as [key values]. unfold submitted, context_entries_of. simpl.
  destruct values as [| b | n | s | values | props]; simpl.
  5:{ intros Hvalues. eexists. split; [done|]. split; [|done].
      revert chunk Hvalues. induction values as [|value values IH]; intros chunk Hchunk.
      - by simplify_option_eq.
      - simpl in Hchunk. destruct value; by simplify_option_eq. }
  all: intros Htext; simplify_option_eq; eexists; split; [done|]; split; [done|];
    intros _; by eexists.
Qed.

Lemma contextEntries_submitted userId contextUpdates props rows :
  JS.entries contextUpdates = Some props →
  submitted_rows props = Some rows →
  ∃ entries, contextEntries userId contextUpdates = Some entries
             ∧ mapM (bind_row P) entries = Some (bound userId <$> rows)
             ∧ length entries = length rows.
Proof.
  intros Hprops. unfold contextEntries, submitted_rows. rewrite Hprops. simpl.
  clear Hprops. revert rows. induction props as [|kv props IH]; intros rows Hrows.
  { simplify_eq/=. by eexists. }
  simpl in Hrows.
  destruct (submitted kv) as [chunk|] eqn:Hchunk; simpl in Hrows; [|done].
  destruct (mapM submitted props) as [chunks|] eqn:Hchunks; simpl in Hrows; [|done].
  simplify_eq.
  destruct (context_entries_of_submitted userId kv chunk Hchunk) as (es & Hes & Hbound & _).
  destruct (IH (List.concat chunks)) as (entries & Hentries & Hbounds & Hlength); [done|].
  simpl. rewrite Hes. simpl.
  destruct (mapM (context_entries_of userId) props) as [ess|]; simpl in *; [|done].
  simplify_eq. eexists. split; [done|]. split.
  - rewrite fmap_app. by apply mapM_app_Some.
  - rewrite !length_app, Hlength. f_equal.
    apply mapM_Some, Forall2_length in Hbound. by rewrite Hbound, length_fmap.
Qed.

Lemma context_rows_bound db now id userId rows :
  DB.user_exists db userId = true →
  ∃ new, DB.context_rows db now id (bound userId <$> rows) = Some new
         ∧ pairs_of new = rows
         ∧ Forall (fun fact => schema.userContext.userId fact = userId) new.
Proof.
  intros Hexists. revert id. induction rows as [|[key value] rows IH]; intros id; simpl.
  { by exists []. }
  rewrite Hexists. simpl.
  destruct (IH (id + 1)%Z) as (new & Hnew & Hpairs & Hown).
  unfold fmap in Hnew. rewrite Hnew. simpl.
  eexists. split; [done|]. split; [by rewrite <- Hpairs|].
  by constructor.
Qed.

Lemma filter_other_nil userId (l : list schema.userContext.row) :
  filter (fun fact => schema.userContext.userId fact = userId)
         (filter (fun fact => schema.userContext.userId fact ≠ userId) l) = [].
Proof.
  induction l as [|fact l IH]; [done|].
  rewrite (filter_cons (fun fact => schema.userContext.userId fact ≠ userId)).
  destruct (decide (schema.userContext.userId fact ≠ userId)); [|done].
  rewrite filter_cons. by rewrite decide_False.
Qed.

Lemma filter_other_same userId other (l : list schema.userContext.row) :
  other ≠ userId →
  filter (fun fact => schema.userContext.userId fact = other)
         (filter (fun fact => schema.userContext.userId fact ≠ userId) l)
  = filter (fun fact => schema.userContext.userId fact = other) l.
Proof.
  intros Hother. induction l as [|fact l IH]; [done|].
  rewrite (filter_cons (fun fact => schema.userContext.userId fact ≠ userId)).
  rewrite (filter_cons (fun fact => schema.userContext.userId fact = other) fact l).
  destruct (decide (schema.userContext.userId fact ≠ userId)) as [Hne|Heq].
  - rewrite filter_cons. destruct (decide _); by rewrite IH.
  - rewrite decide_False; [done|]. apply dec_stable in Heq. congruence.
Qed.

Lemma filter_own userId (l : list schema.userContext.row) :
  Forall (fun fact => schema.userContext.userId fact = userId) l →
  filter (fun fact => schema.userContext.userId fact = userId) l = l.
Proof.
  induction 1 as [|fact l Hfact _ IH]; [done|].
  by rewrite filter_cons, decide_True, IH.
Qed.

Lemma filter_foreign userId other (l : list schema.userContext.row) :
  other ≠ userId →
  Forall (fun fact => schema.userContext.userId fact = userId) l →
  filter (fun fact => schema.userContext.userId fact = other) l = [].
Proof.
  intros Hother. induction 1 as [|fact l Hfact _ IH]; [done|].
  rewrite filter_cons, decide_False; [done|congruence].
Qed.

(** An update whose rows the specification describes replaces the user's
    facts by exactly these rows and touches nothing else. *)
Lemma put_profile_stores (c : Request) (now : Z) (db : D1Database)
    userId contextUpdates props rows :
  authenticated P env c userId →
  DB.user_exists db userId = true →
  json c = Some contextUpdates →
  JS.entries contextUpdates = Some props →
  submitted_rows props = Some rows →
  ∃ db',
    put_profile P env c now db = Ret (profile_updated, db')
    ∧ pairs_of (DB.context_of db' userId) = rows
    ∧ (∀ other, other ≠ userId → DB.context_of db' other = DB.context_of db other)
    ∧ users db' = users db
    ∧ userEntries db' = userEntries db.
Proof.
  intros Hauth Hexists Hjson Hprops Hrows.
  destruct (contextEntries_submitted userId contextUpdates props rows Hprops Hrows)
    as (entries & Hentries & Hbound & Hlength).
  destruct (context_rows_bound (DB.delete_userContext db userId) now
              (seq_userContext db + 1) userId rows Hexists) as (new & Hnew & Hpairs & Hown).
  unfold put_profile. rewrite (authMiddleware_next P env c db _ userId Hauth), Hjson.
  cbv zeta. unfold profile_insert. rewrite Hentries. simpl.
  case_bool_decide as Hsome.
  - rewrite Hbound. simpl. unfold DB.insert_userContext. simpl. rewrite Hnew. simpl.
    eexists. split; [done|]. unfold DB.context_of. simpl.
    split; [|split; [|done]].
    + by rewrite filter_app, filter_other_nil, filter_own.
    + intros other Hother.
      rewrite filter_app, filter_other_same by done.
      rewrite (filter_foreign userId other new) by done. by rewrite app_nil_r.
  - assert (rows = []) as -> by (destruct rows; [done|simpl in *; lia]).
    eexists. split; [done|]. unfold DB.context_of. simpl.
    split; [|split; [|done]].
    + by rewrite filter_other_nil.
    + intros other Hother. by rewrite filter_other_same by done.
Qed.

Lemma values_for_app key (rows1 rows2 : list (string * string)) :
  values_for key (rows1 ++ rows2) = (values_for key rows1 ++ values_for key rows2)%list.
Proof. unfold values_for. by rewrite filter_app, fmap_app. Qed.

Lemma group_context_snoc facts fact :
  group_context (facts ++ [fact])
  = group_context facts ≫= fun context => group_item context fact.
Proof. unfold group_context. by rewrite foldl_app. Qed.

(** Grouping succeeds when no key is a name [Object.prototype] defines, and
    maps every key to the values stored under it, in order. *)
Lemma group_context_spec facts :
  Forall (fun fact => schema.userContext.contextKey fact ∉ Object_prototype) facts →
  ∃ context, group_context facts = Some context
             ∧ ∀ key, context !! key = nonempty (values_for key (pairs_of facts)).
Proof.
  induction facts as [|fact facts IH] using rev_ind; intros Hkeys.
  { exists ∅. split; [done|]. intros key. by rewrite lookup_empty. }
  apply Forall_app in Hkeys as [Hfacts Hfact%Forall_inv].
  destruct (IH Hfacts) as (context & Hcontext & Hlookup).
  rewrite group_context_snoc, Hcontext. simpl. unfold group_item.
  pose proof (Hlookup (schema.userContext.contextKey fact)) as Hkey.
  assert (Hsnoc : ∀ key,
    values_for key (pairs_of (facts ++ [fact]))
    = (values_for key (pairs_of facts)
       ++ if decide (schema.userContext.contextKey fact = key)
          then [schema.userContext.contextValue fact] else [])%list).
  { intros key. unfold pairs_of. rewrite fmap_app, values_for_app. f_equal.
    unfold values_for. simpl. rewrite filter_cons. simpl. by destruct (decide _). }
  destruct (context !! schema.userContext.contextKey fact) as [values|] eqn:Hvalues.
  - eexists. split; [done|]. intros key. rewrite Hsnoc.
    destruct (decide (schema.userContext.contextKey fact = key)) as [<-|Hne].
    + rewrite lookup_insert_eq.
      destruct (values_for _ (pairs_of facts)) as [|v vs]; [done|].
      simpl in Hkey. by simplify_eq.
    + by rewrite lookup_insert_ne, app_nil_r.
  - rewrite bool_decide_eq_false_2 by done.
    eexists. split; [done|]. intros key. rewrite Hsnoc.
    destruct (decide (schema.userContext.contextKey fact = key)) as [<-|Hne].
    + rewrite lookup_insert_eq.
      by destruct (values_for _ (pairs_of facts)).
    + by rewrite lookup_insert_ne, app_nil_r.
Qed.

Lemma user_exists_head db userId :
  DB.user_exists db userId = true →
  ∃ user, head (filter (fun u => schema.users.id u = userId) (users db)) = Some user
          ∧ schema.users.id user = userId.
Proof.
  unfold DB.user_exists. intros Hexists%bool_decide_eq_true.
  apply list_elem_of_fmap in Hexists as (user & Hid & Huser).
  assert (Hin : user ∈ filter (fun u => schema.users.id u = userId) (users db))
    by (by apply list_elem_of_filter).
  destruct (filter _ (users db)) as [|first rest] eqn:Hfilter; [by apply elem_of_nil in Hin|].
  exists first. split; [done|].
  assert (Hfirst : first ∈ filter (fun u => schema.users.id u = userId) (users db))
    by (rewrite Hfilter; left).
  by apply list_elem_of_filter in Hfirst as [? _].
Qed.

(** [GET /profile] for a stored user whose keys group. *)
Lemma get_profile_grouped (c : Request) (db : D1Database) userId :
  authenticated P env c userId →
  DB.user_exists db userId = true →
  Forall (fun kv => kv.1 ∉ Object_prototype) (pairs_of (DB.context_of db userId)) →
  ∃ user context,
    get_profile P env c db
    = Ret ({| status := 200;
              body := ProfileJson (schema.users.id user) (schema.users.email user)
                                  (schema.users.name user) context |}, db)
    ∧ schema.users.id user = userId
    ∧ ∀ key, context !! key = nonempty (values_for key (pairs_of (DB.context_of db userId))).
Proof.
  intros Hauth Hexists Hkeys.
  destruct (user_exists_head db userId Hexists) as (user & Hhead & Hid).
  destruct (group_context_spec (DB.context_of db userId)) as (context & Hcontext & Hlookup).
  { unfold pairs_of in Hkeys. by rewrite Forall_fmap in Hkeys. }
  exists user, context. split; [|done].
  unfold get_profile. rewrite (authMiddleware_next P env c db _ userId Hauth).
  cbv zeta. by rewrite Hcontext, Hhead.
Qed.

(** Grouping succeeds only when no key is a name [Object.prototype]
    defines: a stored fact with such a key makes [GET /profile] fail. *)
Lemma group_context_keys facts context :
  group_context facts = Some context →
  Forall (fun fact => schema.userContext.contextKey fact ∉ Object_prototype) facts.
Proof.
  revert context. induction facts as [|fact facts IH] using rev_ind; intros context Hgroup.
  { constructor. }
  rewrite group_context_snoc in Hgroup.
  destruct (group_context facts) as [before|] eqn:Hbefore; simpl in Hgroup; [|done].
  pose proof (IH before eq_refl) as Hfacts.
  apply Forall_app. split; [done|]. constructor; [|constructor].
  intros Hinherited.
  destruct (group_context_spec facts Hfacts) as (before' & Hbefore' & Hlookup).
  simplify_eq. unfold group_item in Hgroup. rewrite Hlookup in Hgroup.
  assert (values_for (schema.userContext.contextKey fact) (pairs_of facts) = []) as Hnone.
  { unfold values_for, pairs_of. clear -Hfacts Hinherited.
    induction Hfacts as [|other facts Hother _ IH]; [done|].
    rewrite fmap_cons, filter_cons. simpl.
    rewrite decide_False; [done|]. intros Heq. by rewrite Heq in Hother. }
  rewrite Hnone in Hgroup. simpl in Hgroup.
  by rewrite bool_decide_eq_true_2 in Hgroup.
Qed.

(** On any platform, a [null] inside an array makes the update fail after
    the facts of the user are deleted. *)
Lemma null_value_is_refused (c : Request) (now : Z) (db : D1Database) userId key :
  authenticated P env c userId →
  json c = Some (JObj [(key, JArr [JNull])]) →
  put_profile P env c now db = Ret (failed_update, DB.delete_userContext db userId).
Proof.
  intros Hauth Hjson. unfold put_profile.
  by rewrite (authMiddleware_next P env c db _ userId Hauth), Hjson.
Qed.

(** C4, as the code has it: for a stored user and an update that is an
    object in which every array holds only strings and every other value has
    a text ([String] gives one to every value but an object with a property
    of its own named [toString]), [PUT /profile] answers 200, replaces the
    facts of the user by exactly one row per submitted value, in order, and
    leaves every other row alone; when no submitted key is a name inherited
    from [Object.prototype], a following [GET /profile] answers these rows
    grouped by key: every key with its values in order, and no other key. *)
Theorem profile_update_then_read (c c' : Request) (now : Z) (db : D1Database)
    userId props rows :
  authenticated P env c userId →
  authenticated P env c' userId →
  DB.user_exists db userId = true →
  json c = Some (JObj props) →
  submitted_rows props = Some rows →
  ∃ db',
    put_profile P env c now db
    = Ret ({| status := 200; body := SuccessJson "Profile updated successfully" |}, db')
    ∧ pairs_of (DB.context_of db' userId) = rows
    ∧ (∀ other, other ≠ userId → DB.context_of db' other = DB.context_of db other)
    ∧ users db' = users db
    ∧ userEntries db' = userEntries db
    ∧ (Forall (fun kv => kv.1 ∉ Object_prototype) rows →
       ∃ user context,
         get_profile P env c' db'
         = Ret ({| status := 200;
                   body := ProfileJson (schema.users.id user) (schema.users.email user)
                                       (schema.users.name user) context |}, db')
         ∧ schema.users.id user = userId
         ∧ ∀ key, context !! key = nonempty (values_for key rows)).
Proof.
  intros Hauth Hauth' Hexists Hjson Hrows.
  destruct (put_profile_stores c now db userId (JObj props) props rows)
    as (db' & Hput & Hpairs & Hothers & Husers & Hentries); [done..|].
  exists db'. do 5 (split; [done|]). intros Hkeys.
  destruct (get_profile_grouped c' db' userId) as (user & context & Hget & Hid & Hlookup).
  { done. }
  { unfold DB.user_exists in *. by rewrite Husers. }
  { by rewrite Hpairs. }
  exists user, context. rewrite Hpairs in Hlookup. done.
Qed.


Lemma context_rows_stored db now id entries values new :
  mapM (bind_row P) entries = Some values →
  DB.context_rows db now id values = Some new →
  Forall2 (stored_as P) entries new.
Proof.
  intros Hvalues%mapM_Some. revert id new.
  induction Hvalues as [|e v entries values Hv _ IH]; intros id new Hnew; simpl in Hnew.
  { simplify_eq. constructor. }
  destruct v as [[userId key] [value|]]; simpl in Hnew; [|done].
  destruct (DB.user_exists db userId); simpl in Hnew; [|done].
  destruct (DB.context_rows db now (id + 1) values) as [rest|] eqn:Hrest; simpl in Hnew; [|done].
  simplify_eq. constructor; [|by eapply IH].
  unfold bind_row in Hv. destruct (bind P e.2) as [b|] eqn:Hb; simpl in Hv; [|done].
  destruct e as [[] ?]. simpl in *. simplify_eq. by split.
Qed.

Lemma context_entries_of_shape userId kv es :
  context_entries_of userId kv = Some es →
  Forall (fun e => e.1.1 = userId) es
  ∧ (JS.isArray kv.2 = false →
     ∃ text, JS.ToString kv.2 = Some text ∧ es = [(userId, kv.1, JStr text)]).
Proof.
  destruct kv as [key values]. unfold context_entries_of.
  destruct values as [| b | n | s | values | props]; simpl.
  5:{ intros [= <-]. split; [|done]. apply Forall_fmap. by apply Forall_true. }
  all: intros Hes; simplify_option_eq; split; [by repeat constructor|];
    intros _; by eexists.
Qed.



End Profile.

Lemma profile_update_then_read_witness :
  ∃ db' user context,
    put_profile Demo.platform Demo.env (Demo.put Demo.mood_and_goal) 140 Demo.db
    = Ret ({| status := 200; body := SuccessJson "Profile updated successfully" |}, db')
    ∧ pairs_of (DB.context_of db' 1) = [("mood", "happy"); ("mood", "calm"); ("goal", "sleep")]
    ∧ get_profile Demo.platform Demo.env Demo.get db'
      = Ret ({| status := 200;
                body := ProfileJson (schema.users.id user) (schema.users.email user)
                                    (schema.users.name user) context |}, db')
    ∧ context !! "mood" = Some ["happy"; "calm"]
    ∧ context !! "goal" = Some ["sleep"]
    ∧ ∀ key, key ≠ "mood" → key ≠ "goal" → context !! key = None.
Proof.
  destruct (profile_update_then_read Demo.platform Demo.env (Demo.put Demo.mood_and_goal)
              Demo.get 140 Demo.db 1
              [("mood", JArr [JStr "happy"; JStr "calm"]); ("goal", JStr "sleep")]
              [("mood", "happy"); ("mood", "calm"); ("goal", "sleep")])
    as (db' & Hput & Hpairs & _ & _ & _ & Hread).
  - apply demo_authenticated.
  - apply demo_authenticated.
  - reflexivity.
  - reflexivity.
  - reflexivity.
  - destruct Hread as (user & context & Hget & _ & Hlookup).
    { repeat constructor; simpl; by apply (bool_decide_unpack _). }
    exists db', user, context.
    split; [exact Hput|]. split; [exact Hpairs|]. split; [exact Hget|].
    split; [by rewrite Hlookup|]. split; [by rewrite Hlookup|].
    intros key Hmood Hgoal. rewrite Hlookup. unfold values_for.
    rewrite !filter_cons, filter_nil. simpl. by rewrite !decide_False by done.
Defined.

(** C4 as stated fails: an update with a [null] inside an array deletes the
    facts of the user and then is refused by the [notNull()] column, so the
    stored facts are not the submitted ones and the caller is answered 500. *)
Lemma null_value_loses_context :
  pairs_of (DB.context_of Demo.db 1) = [("goal", "rest")]
  ∧ run [] (put_profile Demo.platform Demo.env
              (Demo.put (JObj [("mood", JArr [JNull])])) 140 Demo.db)
    = (json_error "Failed to update profile" 500, DB.delete_userContext Demo.db 1, [])
  ∧ DB.context_of (DB.delete_userContext Demo.db 1) 1 = [].
Proof. repeat split. Qed.

(** A key that [Object.prototype] defines is stored by [PUT /profile] but
    makes the grouping of [GET /profile] throw: the profile can no longer be
    read. *)
Example inherited_key_breaks_profile :
  ∃ db',
    run [] (put_profile Demo.platform Demo.env
              (Demo.put (JObj [("constructor", JStr "builder")])) 140 Demo.db)
    = (profile_updated, db', [])
    ∧ pairs_of (DB.context_of db' 1) = [("constructor", "builder")]
    ∧ run [] (get_profile Demo.platform Demo.env Demo.get db')
      = (json_error "Failed to fetch profile" 500, db', []).
Proof. eexists. repeat split. Qed.

(** A value [String] cannot convert makes the update fail after the facts
    of the user are deleted, array or no array. *)
Example unprintable_value_loses_context :
  run [] (put_profile Demo.platform Demo.env
            (Demo.put (JObj [("a", JObj [("toString", JNum (Number.int 1))])])) 140 Demo.db)
  = ({| status := 500; body := ErrorJson "Failed to update profile" |},
     DB.delete_userContext Demo.db 1, []).
Proof. by vm_compute. Qed.



(** * Further properties of the handlers *)

(** ** What a request may do *)

Section Effects.

Context (P : Platform) (env : Bindings).

Lemma authMiddleware_cases {A} (Q : Exec (Response * A) → Prop) (c : Request) (db : A) next :
  (∀ r, Q (Ret r)) → (∀ userId, Q (next userId)) → Q (authMiddleware P env c db next).
Proof.
  intros Hret Hnext. unfold authMiddleware.
  destruct (Authorization c); [|done].
  destruct (String.prefix _ _); [|done].
  by destruct (verify _ _ _).
Qed.

Lemma one_call_ret {A} (calls : Prop) (r : A) : one_call env calls (Ret r).
Proof. left. by eexists. Qed.

(** Every route either ends at once or, for [POST /entries] only, makes the
    one completion request and ends on its answer. *)
Lemma handle_shape (route : Route) (c : Request) (now : Z) (db : D1Database) :
  one_call env (route = POST_entries) (handle P env route c now db).
Proof.
  destruct route; simpl; try apply one_call_ret.
  - unfold post_entries. apply authMiddleware_cases; [intros; apply one_call_ret|].
    intros userId.
    destruct (JS.get (json c) "content") as [[content|]|]; try apply one_call_ret.
    destruct (JS.truthy content); [|apply one_call_ret].
    unfold entries_try. destruct (JS.ToString content) as [text|]; [|apply one_call_ret].
    right. split; [done|]. eexists _, _. split; [done|].
    split; [by eexists|]. intros result. by eexists.
  - unfold get_entries. apply authMiddleware_cases; [intros; apply one_call_ret|].
    intros userId. cbv zeta. destruct (page P _ _ _); apply one_call_ret.
  - unfold get_profile. apply authMiddleware_cases; [intros; apply one_call_ret|].
    intros userId. cbv zeta. destruct (group_context _); [|apply one_call_ret].
    destruct (head (filter _ (users db))); apply one_call_ret.
  - unfold put_profile. apply authMiddleware_cases; [intros; apply one_call_ret|].
    intros userId. destruct (json c); [|apply one_call_ret].
    cbv zeta. destruct (profile_insert _ _ _ _ _); apply one_call_ret.
Qed.

Lemma sent_of_handle (route : Route) (c : Request) (now : Z) (db : D1Database)
    (net : list FetchResult) :
  (length (run net (handle P env route c now db)).2 ≤ 1)%nat
  ∧ (route ≠ POST_entries → (run net (handle P env route c now db)).2 = [])
  ∧ Forall (completion_request env) (run net (handle P env route c now db)).2.
Proof.
  destruct (handle_shape route c now db) as [[r ->] | (-> & rq & k & -> & Hrq & Hk)]; simpl.
  { split; [lia|]. split; [done|]. constructor. }
  destruct (Hk (default NetworkFailure (head net))) as [r ->]. simpl.
  split; [lia|]. split; [done|]. by repeat constructor.
Qed.

(** X1: serving a request makes at most one outbound call, only
    [POST /entries] makes any, and what is called is always the one
    completion endpoint, with the fixed model and output bound, the API key
    of the worker and a single user message. *)
Theorem outbound_calls (route : Route) (c : Request) (now : Z) (db : D1Database)
    (net : list FetchResult) :
  (length (run net (handle P env route c now db)).2 ≤ 1)%nat
  ∧ (route ≠ POST_entries → (run net (handle P env route c now db)).2 = [])
  ∧ Forall (completion_request env) (run net (handle P env route c now db)).2.
Proof. apply sent_of_handle. Qed.

Lemma reads_unchanged (route : Route) (c : Request) (now : Z) (db : D1Database) :
  reads route → ends_with (fun r => r.2 = db) (handle P env route c now db).
Proof.
  intros [-> | [-> | [-> | ->]]]; simpl; try by constructor.
  - apply authMiddleware_ends_with; [done|]. intros userId.
    cbv zeta. destruct (page P _ _ _); by constructor.
  - apply authMiddleware_ends_with; [done|]. intros userId.
    cbv zeta. destruct (group_context _); [|by constructor].
    destruct (head (filter _ (users db))); by constructor.
Qed.

(** X2: the routes that read ([GET /], [GET /entries], [GET /profile],
    [GET /openapi.json]) leave the database exactly as it was and call
    nothing, whatever the request and whatever they answer. *)
Theorem reads_never_write (route : Route) (c : Request) (now : Z) (db : D1Database)
    (net : list FetchResult) :
  reads route →
  ∃ response, run net (handle P env route c now db) = (response, db, []).
Proof.
  intros Hreads.
  pose proof (ends_with_run _ _ net (reads_unchanged route c now db Hreads)) as Hdb.
  destruct (sent_of_handle route c now db net) as (_ & Hsent & _).
  destruct (run net (handle P env route c now db)) as [[response db'] sent].
  simpl in *. subst db'. exists response. f_equal.
  apply Hsent. by destruct Hreads as [-> | [-> | [-> | ->]]].
Qed.

End Effects.

(** ** The schema's promises are kept *)

Section Consistency.

Context (P : Platform) (env : Bindings).

Lemma NoDup_fmap_filter {A B} (f : A → B) (Q : A → Prop) `{∀ x, Decision (Q x)} (l : list A) :
  NoDup (f <$> l) → NoDup (f <$> filter Q l).
Proof.
  induction l as [|x l IH]; [done|]. rewrite fmap_cons, NoDup_cons. intros [Hx Hl].
  rewrite filter_cons. destruct (decide (Q x)); [|by apply IH].
  rewrite fmap_cons. apply NoDup_cons. split; [|by apply IH].
  intros (y & Hy & Hin%list_elem_of_filter)%list_elem_of_fmap.
  apply Hx. apply list_elem_of_fmap. exists y. by destruct Hin.
Qed.

Lemma Forall_filter_keep {A} (R Q : A → Prop) `{∀ x, Decision (Q x)} (l : list A) :
  Forall R l → Forall R (filter Q l).
Proof.
  rewrite !Forall_forall. intros HR x Hx%list_elem_of_filter. apply HR. by destruct Hx.
Qed.

Lemma NoDup_snoc_fresh (ids : list Z) (last : Z) :
  NoDup ids → Forall (fun i => (i ≤ last)%Z) ids → NoDup (ids ++ [last + 1]%Z).
Proof.
  intros Hids Hle. apply NoDup_app. split; [done|]. split; [|apply NoDup_singleton].
  intros i Hi ->%list_elem_of_singleton.
  rewrite Forall_forall in Hle. specialize (Hle _ Hi). lia.
Qed.

Lemma insert_users_consistent db email name now user db' :
  consistent db → DB.insert_users db email name now = Some (user, db') → consistent db'.
Proof.
  intros [] Hinsert. unfold DB.insert_users in Hinsert.
  destruct email as [e|]; [|done]. case_bool_decide as Hfresh; [done|]. simplify_eq.
  constructor; simpl; try done.
  - rewrite fmap_app. by apply NoDup_snoc_fresh; [|rewrite Forall_fmap].
  - rewrite fmap_app. apply NoDup_app. split; [done|]. split; [|apply NoDup_singleton].
    by intros e' He' ->%list_elem_of_singleton.
  - apply Forall_app. split; [|repeat constructor; simpl; lia].
    eapply Forall_impl; [exact users_seq0|]. simpl. intros. lia.
  - eapply Forall_impl; [exact entries_owner0|]. simpl. intros e' He'. rewrite fmap_app.
    apply elem_of_app. by left.
  - eapply Forall_impl; [exact context_owner0|]. simpl. intros f' Hf'. rewrite fmap_app.
    apply elem_of_app. by left.
Qed.

Lemma insert_userEntries_consistent db userId content reply now entry db' :
  consistent db →
  DB.insert_userEntries db userId content reply now = Some (entry, db') →
  consistent db'.
Proof.
  intros [] Hinsert. unfold DB.insert_userEntries in Hinsert.
  destruct content as [text|]; [|done].
  destruct (DB.user_exists db userId) eqn:Hexists; [|done]. simplify_eq.
  apply bool_decide_eq_true in Hexists.
  constructor; simpl; try done.
  - rewrite fmap_app. by apply NoDup_snoc_fresh; [|rewrite Forall_fmap].
  - apply Forall_app. split; [|repeat constructor; simpl; lia].
    eapply Forall_impl; [exact entries_seq0|]. simpl. intros. lia.
  - apply Forall_app. split; [done|]. by repeat constructor.
Qed.

Lemma delete_userContext_consistent db userId :
  consistent db → consistent (DB.delete_userContext db userId).
Proof.
  intros []. constructor; simpl; try done.
  - by apply NoDup_fmap_filter.
  - by apply Forall_filter_keep.
  - by apply Forall_filter_keep.
Qed.

(** The rows of a batch carry the ids from [id] on, one after the other, and
    belong to stored users. *)
Lemma context_rows_ids db now id values rows :
  DB.context_rows db now id values = Some rows →
  Forall (fun f => (id ≤ schema.userContext.id f < id + Z.of_nat (length values))%Z) rows
  ∧ NoDup (schema.userContext.id <$> rows)
  ∧ Forall (fun f => schema.userContext.userId f ∈ schema.users.id <$> users db) rows.
Proof.
  revert id rows. induction values as [|[[userId key] value] values IH];
    intros id rows Hrows; simpl in Hrows.
  { simplify_eq. repeat constructor. }
  destruct value as [value|]; simpl in Hrows; [|done].
  destruct (DB.user_exists db userId) eqn:Hexists; simpl in Hrows; [|done].
  destruct (DB.context_rows db now (id + 1) values) as [rest|] eqn:Hrest;
    simpl in Hrows; [|done].
  simplify_eq. destruct (IH _ _ Hrest) as (Hrange & Hnodup & Howner).
  apply bool_decide_eq_true in Hexists.
  split; [|split].
  - constructor; [simpl; lia|]. eapply Forall_impl; [exact Hrange|]. simpl. intros. lia.
  - rewrite fmap_cons. apply NoDup_cons. split; [|done]. simpl.
    intros (f & Hf & Hin)%list_elem_of_fmap.
    rewrite Forall_forall in Hrange. specialize (Hrange _ Hin). lia.
  - by constructor.
Qed.

Lemma insert_userContext_consistent db values now db' :
  consistent db → DB.insert_userContext db values now = Some db' → consistent db'.
Proof.
  intros [] Hinsert. unfold DB.insert_userContext in Hinsert.
  destruct (DB.context_rows db now (seq_userContext db + 1) values) as [rows|] eqn:Hrows;
    simpl in Hinsert; [|done].
  simplify_eq. destruct (context_rows_ids _ _ _ _ _ Hrows) as (Hrange & Hnodup & Howner).
  rewrite Forall_forall in Hrange.
  constructor; simpl; try done.
  - rewrite fmap_app. apply NoDup_app. split; [done|]. split; [|done].
    intros i (f & -> & Hf)%list_elem_of_fmap (g & Hg & Hin)%list_elem_of_fmap.
    rewrite Forall_forall in context_seq0.
    specialize (context_seq0 _ Hf). specialize (Hrange _ Hin). lia.
  - apply Forall_app. split.
    + eapply Forall_impl; [exact context_seq0|]. simpl. intros. lia.
    + apply Forall_forall. intros f Hf. specialize (Hrange _ Hf). simpl. lia.
  - by apply Forall_app.
Qed.

Lemma post_auth_login_consistent c now db :
  consistent db → consistent (post_auth_login P env c now db).2.
Proof.
  intros Hdb. unfold post_auth_login.
  destruct (JS.get (json c) "email") as [[email|]|], (JS.get (json c) "name") as [name|];
    simpl; try done.
  destruct (JS.truthy email); [|done].
  destruct (login_try P env email name now db) as [[response db']|] eqn:Htry; [|done].
  simpl. unfold login_try in Htry.
  destruct (bind P email) as [e|]; simpl in Htry; [|done].
  destruct (head _) as [user|]; simpl in Htry; [by simplify_eq|].
  destruct (bind P (or_null name)) as [n|]; simpl in Htry; [|done].
  destruct (DB.insert_users db e n now) as [[user db'']|] eqn:Hinsert; simpl in Htry; [|done].
  simplify_eq. by eapply insert_users_consistent.
Qed.

Lemma handle_consistent route c now db :
  consistent db → ends_with (fun r => consistent r.2) (handle P env route c now db).
Proof.
  intros Hdb. destruct route; simpl.
  - by constructor.
  - constructor. by apply post_auth_login_consistent.
  - apply authMiddleware_ends_with; [done|]. intros userId.
    destruct (JS.get (json c) "content") as [[content|]|]; try by constructor.
    destruct (JS.truthy content); [|by constructor].
    unfold entries_try. destruct (JS.ToString _); [|by constructor].
    constructor. intros result. constructor.
    destruct (entries_after_fetch P userId content now db result)
      as [[response db']|] eqn:Hafter; simpl; [|done].
    unfold entries_after_fetch in Hafter. destruct result as [|[] data]; try done.
    destruct data as [aiData|]; simpl in Hafter; [|done].
    destruct (recommendation_of aiData) as [recommendation|]; simpl in Hafter; [|done].
    destruct (bind P content) as [text|]; simpl in Hafter; [|done].
    destruct (bind_opt P recommendation) as [reply|]; simpl in Hafter; [|done].
    destruct (DB.insert_userEntries db userId text reply now) as [[entry db'']|] eqn:Hinsert;
      simpl in Hafter; [|done].
    simplify_eq. by eapply insert_userEntries_consistent.
  - apply authMiddleware_ends_with; [done|]. intros userId.
    cbv zeta. destruct (page P _ _ _); by constructor.
  - apply authMiddleware_ends_with; [done|]. intros userId.
    cbv zeta. destruct (group_context _); [|by constructor].
    destruct (head (filter _ (users db))); by constructor.
  - apply authMiddleware_ends_with; [done|]. intros userId.
    destruct (json c) as [contextUpdates|]; [|by constructor]. cbv zeta.
    pose proof (delete_userContext_consistent db userId Hdb) as Hcleared.
    destruct (profile_insert P userId contextUpdates now (DB.delete_userContext db userId))
      as [db'|] eqn:Hinsert; constructor; simpl; [|done].
    unfold profile_insert in Hinsert.
    destruct (contextEntries userId contextUpdates) as [rows|]; simpl in Hinsert; [|done].
    case_bool_decide; [|by simplify_eq].
    destruct (mapM _ rows) as [values|]; simpl in Hinsert; [|done].
    by eapply insert_userContext_consistent.
  - by constructor.
Qed.

Lemma serve_all_consistent (calls : list Call) (db : D1Database) :
  consistent db → consistent (serve_all P env calls db).
Proof.
  revert db. induction calls as [|call calls IH]; intros db Hdb; simpl; [done|].
  apply IH. unfold serve.
  apply (ends_with_run (fun r => consistent r.2) _ (network call)).
  by apply handle_consistent.
Qed.

(** X3: whatever requests are served, the stored rows keep what the schema
    promises: ids stay unique within each table, emails stay unique, and
    every entry and every context fact still belongs to a stored user. *)
Theorem schema_promises_kept (calls : list Call) (db : D1Database) :
  consistent db → consistent (serve_all P env calls db).
Proof. apply serve_all_consistent. Qed.

End Consistency.

(** ** More on login *)

Section LoginAnswers.

Context (P : Platform) (env : Bindings).

Lemma login_try_answer email name now db response db' :
  login_try P env email name now db = Some (response, db') →
  ∃ user, response = login_ok P env user
          ∧ user ∈ users db'
          ∧ (db' = db ∨ users db' = (users db ++ [user])%list).
Proof.
  unfold login_try. intros Htry.
  destruct (bind P email) as [e|]; simpl in Htry; [|done].
  destruct (head _) as [user|] eqn:Hhead; simpl in Htry.
  - simplify_eq. exists user. split; [done|]. split; [|by left].
    destruct e as [e|]; [|done].
    by apply head_Some_elem_of, list_elem_of_filter in Hhead as [_ ?].
  - destruct (bind P (or_null name)) as [n|]; simpl in Htry; [|done].
    unfold DB.insert_users in Htry. destruct e as [e|]; simpl in Htry; [|done].
    case_bool_decide; simpl in Htry; [done|]. simplify_eq.
    exists (schema.users.mk (seq_users db + 1) e n now now).
    split; [done|]. simpl. split; [|by right].
    apply elem_of_app. right. by apply list_elem_of_singleton.
Qed.

Lemma post_auth_login_cases c now db :
  (post_auth_login P env c now db).2 = db
  ∧ (status (post_auth_login P env c now db).1 = 400%Z
     ∨ status (post_auth_login P env c now db).1 = 500%Z)
  ∨ ∃ user, post_auth_login P env c now db
            = (login_ok P env user, (post_auth_login P env c now db).2)
            ∧ user ∈ users (post_auth_login P env c now db).2
            ∧ ((post_auth_login P env c now db).2 = db
               ∨ users (post_auth_login P env c now db).2 = (users db ++ [user])%list).
Proof.
  unfold post_auth_login.
  destruct (JS.get (json c) "email") as [[email|]|], (JS.get (json c) "name") as [name|];
    simpl; auto.
  destruct (JS.truthy email); simpl; [|auto].
  destruct (login_try P env email name now db) as [[response db']|] eqn:Htry; simpl; [|auto].
  right. destruct (login_try_answer _ _ _ _ _ _ Htry) as (user & -> & Hin & Hdb).
  by exists user.
Qed.

(** X4: a login whose email is missing or empty is answered 400
    [Email is required] and writes nothing, and no other login is answered
    400. *)
Theorem login_requires_email (c : Request) (now : Z) (db : D1Database) (email : option JSON) :
  JS.get (json c) "email" = Some email →
  (email_empty email →
   post_auth_login P env c now db = (json_error "Email is required" 400, db))
  ∧ (status (post_auth_login P env c now db).1 = 400%Z → email_empty email).
Proof.
  intros Hemail. unfold post_auth_login. rewrite Hemail.
  destruct (get_total (json c) "email" "name") as [name ->]; [by rewrite Hemail|].
  destruct email as [email|]; [|by split; [|intros _ ? [=]]].
  destruct (JS.truthy email) eqn:Htruthy.
  - split; [intros Hempty; by rewrite (Hempty email eq_refl) in Htruthy|].
    destruct (login_try P env email name now db) as [[response db']|] eqn:Htry; simpl; [|done].
    destruct (login_try_answer _ _ _ _ _ _ Htry) as (user & -> & _). done.
  - split; [done|]. intros _ value [= <-]. done.
Qed.

(** X5: for an email that is stored, login answers with the stored user and
    writes nothing, whatever name the request carries: the stored name is
    neither replaced nor completed. *)
Theorem login_keeps_stored_name (c : Request) (now : Z) (db : D1Database) (email : string) :
  JS.get (json c) "email" = Some (Some (JStr email)) →
  email ≠ "" →
  email ∈ schema.users.email <$> users db →
  ∃ user, user ∈ users db
          ∧ schema.users.email user = email
          ∧ post_auth_login P env c now db = (login_ok P env user, db).
Proof.
  intros Hemail Hnonempty Hstored.
  destruct (head (filter (fun u => schema.users.email u = email) (users db)))
    as [user|] eqn:Hhead.
  - exists user. destruct (head_filter_email_Some _ _ _ Hhead) as [Heq _].
    split; [|split; [done|by apply (login_known P env c now db email user)]].
    by apply head_Some_elem_of, list_elem_of_filter in Hhead as [_ ?].
  - by apply head_filter_email_None in Hhead.
Qed.

Lemma NoDup_fmap_eq {A B} (f : A → B) (l : list A) (x y : A) :
  NoDup (f <$> l) → x ∈ l → y ∈ l → f x = f y → x = y.
Proof.
  induction l as [|z l IH]; [by intros _ ?%elem_of_nil|].
  rewrite fmap_cons, NoDup_cons. intros [Hz Hl] Hx Hy Hf.
  apply elem_of_cons in Hx as [->|Hx], Hy as [->|Hy]; [done| | |by apply IH].
  - destruct Hz. rewrite Hf. by apply list_elem_of_fmap_2.
  - destruct Hz. rewrite <- Hf. by apply list_elem_of_fmap_2.
Qed.

(** X6: two logins that are answered for different emails are answered
    with different user ids. *)
Theorem logins_distinct (c1 c2 : Request) (now1 now2 : Z) (db : D1Database)
    token1 id1 email1 name1 token2 id2 email2 name2 :
  consistent db →
  body (post_auth_login P env c1 now1 db).1 = LoginJson token1 id1 email1 name1 →
  body (post_auth_login P env c2 now2 (post_auth_login P env c1 now1 db).2).1
  = LoginJson token2 id2 email2 name2 →
  email1 ≠ email2 →
  id1 ≠ id2.
Proof.
  intros Hdb Hfirst Hsecond Hemails Hids.
  pose proof (post_auth_login_consistent P env c1 now1 db Hdb) as Hdb1.
  pose proof (post_auth_login_consistent P env c2 now2 _ Hdb1) as Hdb2.
  destruct (post_auth_login_cases c1 now1 db) as [[_ Hstatus] | (user1 & Hlogin1 & Hin1 & _)].
  { destruct (post_auth_login P env c1 now1 db) as [[status1 body1] db1] eqn:Hlogin1.
    unfold post_auth_login in Hlogin1. exfalso. clear -Hlogin1 Hfirst Hstatus.
    simpl in *. subst body1.
    destruct (JS.get (json c1) "email") as [[email|]|], (JS.get (json c1) "name") as [name|];
      simplify_eq/=.
    destruct (JS.truthy email); simplify_eq/=.
    destruct (login_try P env email name now1 db) as [[response db']|] eqn:Htry;
      simplify_eq/=.
    destruct (login_try_answer _ _ _ _ _ _ Htry) as (user & Hresponse & _).
    unfold login_ok in Hresponse. simplify_eq. by destruct Hstatus. }
  set (db1 := (post_auth_login P env c1 now1 db).2) in *.
  destruct (post_auth_login_cases c2 now2 db1) as [[_ Hstatus] | (user2 & Hlogin2 & Hin2 & Hgrow)].
  { destruct (post_auth_login P env c2 now2 db1) as [[status2 body2] db2] eqn:Hlogin2.
    unfold post_auth_login in Hlogin2. exfalso. clear -Hlogin2 Hsecond Hstatus.
    simpl in *. subst body2.
    destruct (JS.get (json c2) "email") as [[email|]|], (JS.get (json c2) "name") as [name|];
      simplify_eq/=.
    destruct (JS.truthy email); simplify_eq/=.
    destruct (login_try P env email name now2 db1) as [[response db']|] eqn:Htry;
      simplify_eq/=.
    destruct (login_try_answer _ _ _ _ _ _ Htry) as (user & Hresponse & _).
    unfold login_ok in Hresponse. simplify_eq. by destruct Hstatus. }
  rewrite Hlogin1 in Hfirst. rewrite Hlogin2 in Hsecond. simpl in *. simplify_eq.
  apply Hemails. f_equal.
  apply (NoDup_fmap_eq schema.users.id (users (post_auth_login P env c2 now2 db1).2));
    [by destruct Hdb2| |done|done].
  destruct Hgrow as [-> | ->]; [done|]. apply elem_of_app. by left.
Qed.

(** X7: the token a login answers with, once it verifies to the id it was
    signed for, opens the profile of that same user: [GET /profile] with it
    answers the id, email and name of the login answer, and the stored facts
    of that user grouped by key (provided none of their keys is a name
    inherited from [Object.prototype]). *)
Theorem login_then_profile (c c' : Request) (now : Z) (db : D1Database)
    token id email name :
  consistent db →
  body (post_auth_login P env c now db).1 = LoginJson token id email name →
  Authorization c' = Some ("Bearer " +:+ token) →
  verify P token (JWT_SECRET env) = Some id →
  Forall (fun fact => schema.userContext.contextKey fact ∉ Object_prototype)
         (DB.context_of (post_auth_login P env c now db).2 id) →
  ∃ context,
    get_profile P env c' (post_auth_login P env c now db).2
    = Ret ({| status := 200; body := ProfileJson id email name context |},
           (post_auth_login P env c now db).2)
    ∧ ∀ key, context !! key
             = nonempty (values_for key
                           (pairs_of (DB.context_of (post_auth_login P env c now db).2 id))).
Proof.
  intros Hdb Hanswer Hheader Hverify Hkeys.
  pose proof (post_auth_login_consistent P env c now db Hdb) as Hdb1.
  destruct (post_auth_login_cases c now db) as [[_ Hstatus] | (user & Hlogin & Hin & _)].
  { exfalso. unfold post_auth_login in *. clear -Hanswer Hstatus.
    destruct (JS.get (json c) "email") as [[e|]|], (JS.get (json c) "name") as [n|];
      simplify_eq/=.
    destruct (JS.truthy e); simplify_eq/=.
    destruct (login_try P env e n now db) as [[response db']|] eqn:Htry; simplify_eq/=.
    destruct (login_try_answer _ _ _ _ _ _ Htry) as (user & Hresponse & _).
    unfold login_ok in Hresponse. simplify_eq. by destruct Hstatus. }
  set (db1 := (post_auth_login P env c now db).2) in *.
  rewrite Hlogin in Hanswer. simpl in Hanswer. simplify_eq.
  assert (Hauth : authenticated P env c' (schema.users.id user)) by (by eexists).
  assert (Hexists : DB.user_exists db1 (schema.users.id user) = true).
  { apply bool_decide_eq_true. by apply list_elem_of_fmap_2. }
  destruct (user_exists_head db1 _ Hexists) as (user' & Hhead & Hid).
  assert (user' = user) as ->.
  { apply (NoDup_fmap_eq schema.users.id (users db1)); [by destruct Hdb1| |done|done].
    by apply head_Some_elem_of, list_elem_of_filter in Hhead as [_ ?]. }
  destruct (group_context_spec _ Hkeys) as (context & Hcontext & Hlookup).
  exists context. split; [|done].
  unfold get_profile. rewrite (authMiddleware_next P env c' db1 _ _ Hauth).
  cbv zeta. by rewrite Hcontext, Hhead.
Qed.

End LoginAnswers.

(** ** More on the profile *)

Section ProfileEffects.

Context (P : Platform) (env : Bindings).

(** Whatever the insert of an update adds, it adds at the end of the context
    table, for the acting user, and it touches no other table. *)
Lemma profile_insert_rows userId contextUpdates now db db' :
  profile_insert P userId contextUpdates now db = Some db' →
  users db' = users db
  ∧ userEntries db' = userEntries db
  ∧ ∃ new, userContext db' = (userContext db ++ new)%list
           ∧ Forall (fun fact => schema.userContext.userId fact = userId) new.
Proof.
  unfold profile_insert, contextEntries. intros Hinsert.
  destruct (JS.entries contextUpdates) as [props|]; simpl in Hinsert; [|done].
  destruct (mapM (context_entries_of userId) props) as [ess|] eqn:Hess; simpl in Hinsert; [|done].
  case_bool_decide.
  2:{ simplify_eq. do 2 (split; [done|]). exists []. by rewrite app_nil_r. }
  assert (Hown : Forall (fun e => e.1.1 = userId) (List.concat ess)).
  { apply mapM_Some in Hess. clear -Hess.
    induction Hess as [|kv es props ess Hes _ IH]; simpl; [constructor|].
    apply Forall_app. split; [|done]. by apply (context_entries_of_shape userId kv es). }
  destruct (mapM (bind_row P) (List.concat ess)) as [values|] eqn:Hvalues;
    simpl in Hinsert; [|done].
  unfold DB.insert_userContext in Hinsert.
  destruct (DB.context_rows _ _ _ values) as [new|] eqn:Hnew; simpl in Hinsert; [|done].
  simplify_eq. simpl. do 2 (split; [done|]). exists new. split; [done|].
  pose proof (context_rows_stored P _ _ _ _ _ _ Hvalues Hnew) as Hstored.
  clear -Hown Hstored. induction Hstored as [|e fact es facts [He _] _ IH]; [constructor|].
  apply Forall_cons in Hown as [Hu Hown]. constructor; [|by apply IH].
  by rewrite He in Hu.
Qed.

Lemma put_profile_ends (c : Request) (now : Z) (db : D1Database) userId :
  authenticated P env c userId →
  put_profile P env c now db
  = Ret match json c with
        | Some contextUpdates =>
            match profile_insert P userId contextUpdates now (DB.delete_userContext db userId) with
            | Some db' => (profile_updated, db')
            | None => (failed_update, DB.delete_userContext db userId)
            end
        | None => (internal_server_error, db)
        end.
Proof.
  intros Hauth. unfold put_profile. rewrite (authMiddleware_next P env c db _ userId Hauth).
  destruct (json c); [|done]. cbv zeta. by destruct (profile_insert _ _ _ _ _).
Qed.

(** X8: whatever its body and whatever it answers, [PUT /profile] changes
    nothing but the context facts of the user who sends it: the users, the
    entries and the facts of every other user are as before. *)
Theorem put_profile_touches_only_own (c : Request) (now : Z) (db : D1Database) userId :
  authenticated P env c userId →
  ∃ response db',
    put_profile P env c now db = Ret (response, db')
    ∧ users db' = users db
    ∧ userEntries db' = userEntries db
    ∧ ∀ other, other ≠ userId → DB.context_of db' other = DB.context_of db other.
Proof.
  intros Hauth. rewrite (put_profile_ends c now db userId Hauth).
  destruct (json c) as [contextUpdates|]; [|by eexists _, _].
  destruct (profile_insert P userId contextUpdates now (DB.delete_userContext db userId))
    as [db'|] eqn:Hinsert.
  - destruct (profile_insert_rows _ _ _ _ _ Hinsert) as (Husers & Hentries & new & Hnew & Hown).
    eexists _, _. split; [done|]. split; [done|]. split; [done|].
    intros other Hother. unfold DB.context_of. rewrite Hnew. simpl.
    rewrite filter_app, filter_other_same by done.
    rewrite (filter_foreign userId other new) by done. by rewrite app_nil_r.
  - eexists _, _. split; [done|]. split; [done|]. split; [done|].
    intros other Hother. unfold DB.context_of. simpl. by rewrite filter_other_same.
Qed.

(** X9: a [PUT /profile] that fails has either failed before anything was
    written (the body is not JSON: 500 from the framework, database as it
    was) or after the delete (500 [Failed to update profile]): then the
    user is left with no context facts at all, the old ones included.  A
    [null] body is such a failure. *)
Theorem put_profile_failure_loses_facts (c : Request) (now : Z) (db : D1Database) userId :
  authenticated P env c userId →
  ∃ response db',
    put_profile P env c now db = Ret (response, db')
    ∧ (json c = None → response = internal_server_error ∧ db' = db)
    ∧ (is_Some (json c) →
       response = profile_updated
       ∨ (response = failed_update
          ∧ db' = DB.delete_userContext db userId
          ∧ DB.context_of db' userId = []))
    ∧ (json c = Some JNull → response = failed_update).
Proof.
  intros Hauth. rewrite (put_profile_ends c now db userId Hauth).
  destruct (json c) as [contextUpdates|].
  - destruct (profile_insert P userId contextUpdates now (DB.delete_userContext db userId))
      as [db'|] eqn:Hinsert; eexists _, _; (split; [done|]); (split; [done|]).
    + split; [by left|]. intros [= ->]. done.
    + split; [|done]. intros _. right. split; [done|]. split; [done|].
      apply filter_other_nil.
  - eexists _, _. split; [done|]. split; [done|]. split; [by intros [? ?]|done].
Qed.

(** X10: of two updates in a row, only the second is stored: the facts of
    the user after it are the rows of the second update, none of the first
    is left, and sending the same update twice stores it once. *)
Theorem profile_last_update_wins (c1 c2 : Request) (now1 now2 : Z) (db : D1Database)
    userId updates1 props1 rows1 updates2 props2 rows2 :
  authenticated P env c1 userId →
  authenticated P env c2 userId →
  DB.user_exists db userId = true →
  json c1 = Some updates1 → JS.entries updates1 = Some props1 →
  submitted_rows props1 = Some rows1 →
  json c2 = Some updates2 → JS.entries updates2 = Some props2 →
  submitted_rows props2 = Some rows2 →
  ∃ db1 db2,
    put_profile P env c1 now1 db = Ret (profile_updated, db1)
    ∧ put_profile P env c2 now2 db1 = Ret (profile_updated, db2)
    ∧ pairs_of (DB.context_of db1 userId) = rows1
    ∧ pairs_of (DB.context_of db2 userId) = rows2.
Proof.
  intros Hauth1 Hauth2 Hexists Hjson1 Hprops1 Hrows1 Hjson2 Hprops2 Hrows2.
  destruct (put_profile_stores P env c1 now1 db userId updates1 props1 rows1)
    as (db1 & Hput1 & Hpairs1 & _ & Husers1 & _); [done..|].
  destruct (put_profile_stores P env c2 now2 db1 userId updates2 props2 rows2)
    as (db2 & Hput2 & Hpairs2 & _); [done| |done..|].
  { unfold DB.user_exists in *. by rewrite Husers1. }
  by exists db1, db2.
Qed.

(** X11: [GET /profile] of an authenticated request answers 200 exactly when
    the user is stored and none of the user's context keys is a name
    inherited from [Object.prototype]; otherwise it answers 500
    [Failed to fetch profile]. *)
Theorem profile_readable_iff (c : Request) (db : D1Database) userId :
  authenticated P env c userId →
  ∃ response,
    get_profile P env c db = Ret (response, db)
    ∧ (status response = 200%Z
       ↔ DB.user_exists db userId = true
         ∧ Forall (fun fact => schema.userContext.contextKey fact ∉ Object_prototype)
                  (DB.context_of db userId))
    ∧ (status response ≠ 200%Z → response = failed_profile).
Proof.
  intros Hauth. unfold get_profile. rewrite (authMiddleware_next P env c db _ userId Hauth).
  cbv zeta.
  destruct (group_context (DB.context_of db userId)) as [context|] eqn:Hgroup.
  - pose proof (group_context_keys _ _ Hgroup) as Hkeys.
    destruct (head (filter _ (users db))) as [user|] eqn:Hhead.
    + eexists. split; [done|]. simpl. split; [|done]. split; [|done]. intros _.
      split; [|done]. apply bool_decide_eq_true.
      apply head_Some_elem_of, list_elem_of_filter in Hhead as [<- Hin].
      by apply list_elem_of_fmap_2.
    + eexists. split; [done|]. simpl. split; [|done]. split; [done|].
      intros [Hexists _]. destruct (user_exists_head db userId Hexists) as (user & Huser & _).
      congruence.
  - eexists. split; [done|]. simpl. split; [|done]. split; [done|].
    intros [_ Hkeys]. destruct (group_context_spec _ Hkeys) as (context & Hcontext & _).
    congruence.
Qed.

End ProfileEffects.

(** ** More on entries *)

Section EntriesEffects.

Context (P : Platform) (env : Bindings).

Lemma entries_after_fetch_unknown userId content now db result :
  DB.user_exists db userId = false →
  entries_after_fetch P userId content now db result = None.
Proof.
  intros Hunknown. unfold entries_after_fetch, DB.insert_userEntries.
  destruct result as [|[] [aiData|]]; simpl; try done.
  destruct (recommendation_of aiData) as [recommendation|]; simpl; [|done].
  destruct (bind P content) as [[text|]|]; simpl; [| |done].
  - rewrite Hunknown. by destruct (bind_opt P recommendation).
  - by destruct (bind_opt P recommendation).
Qed.

(** X12: a token that verifies to an id with no stored user still gets its
    submission sent to the completion service; only then is the insert
    refused, so the caller is answered 500 and nothing is stored, whatever the
    service answered. *)
Theorem unknown_user_pays_the_call (c : Request) (now : Z) (db : D1Database)
    (net : list FetchResult) (result : FetchResult) userId content text :
  authenticated P env c userId →
  DB.user_exists db userId = false →
  JS.get (json c) "content" = Some (Some content) →
  JS.truthy content = true →
  JS.ToString content = Some text →
  run (result :: net) (post_entries P env c now db)
  = (json_error "Failed to generate recommendation" 500, db,
     [messages_request env
        (spec_prompt (DB.context_of db userId) (DB.entries_of db userId) text)]).
Proof.
  intros Hauth Hunknown Hcontent Htruthy Htext.
  rewrite (post_entries_fetch P env c now db userId content text) by done.
  simpl. rewrite entries_after_fetch_unknown by done. simpl.
  by rewrite aiPrompt_spec.
Qed.

(** X13: the history a user is answered holds stored entries of that user
    only, whatever page is asked for with a limit and an offset that read as
    counts. *)
Theorem history_is_own (c : Request) (db : D1Database) userId (l o : Z) :
  authenticated P env c userId →
  Number.count (JS.parseInt (JS.or_string (req_query c "limit") "20")) = Some l →
  Number.count (JS.parseInt (JS.or_string (req_query c "offset") "0")) = Some o →
  ∃ rows,
    get_entries P env c db = Ret ({| status := 200; body := EntriesJson rows |}, db)
    ∧ Forall (fun entry => schema.userEntries.userId entry = userId
                           ∧ entry ∈ userEntries db) rows.
Proof.
  intros Hauth Hlimit Hoffset.
  exists (take (Z.to_nat l) (drop (Z.to_nat o) (DB.entries_of db userId))).
  split; [by apply get_entries_counts|].
  apply Forall_forall. intros entry Hentry.
  apply elem_of_take in Hentry as (i & Hentry & _).
  apply list_elem_of_lookup_2 in Hentry.
  assert (Hin : entry ∈ DB.entries_of db userId).
  { apply list_elem_of_lookup in Hentry as [j Hj]. rewrite lookup_drop in Hj.
    by eapply list_elem_of_lookup_2. }
  unfold DB.entries_of in Hin. rewrite orderBy_desc_perm in Hin.
  by apply list_elem_of_filter in Hin.
Qed.

Lemma orderBy_desc_newest {A} (key : A → Z) (l : list A) (a : A) :
  Forall (fun b => (key b < key a)%Z) l →
  DB.orderBy_desc key (l ++ [a]) = a :: DB.orderBy_desc key l.
Proof.
  induction 1 as [|b l Hb _ IH]; [done|].
  simpl. fold (DB.orderBy_desc key (l ++ [a])). rewrite IH. simpl.
  destruct (Z.leb_spec (key a) (key b)); [lia|done].
Qed.

(** X14: an entry stored at a time later than every entry the user already
    has is the first row of the user's history from then on: [GET /entries]
    with no paging answers it followed by the 19 newest of the former
    entries. *)
Theorem new_entry_heads_history (c c' : Request) (now : Z) (db : D1Database)
    (net : list FetchResult) userId content aiData text :
  authenticated P env c userId →
  authenticated P env c' userId →
  DB.user_exists db userId = true →
  JS.get (json c) "content" = Some (Some (JStr content)) →
  content ≠ "" →
  completion_text aiData text →
  Forall (fun entry => schema.userEntries.userId entry = userId →
                       (schema.userEntries.createdAt entry < now)%Z) (userEntries db) →
  req_query c' "limit" = None →
  req_query c' "offset" = None →
  ∃ newEntry db' sent,
    run (HttpResponse true (Some aiData) :: net) (post_entries P env c now db)
    = ({| status := 200; body := EntryJson newEntry (Some (JStr text)) |}, db', sent)
    ∧ get_entries P env c' db'
      = Ret ({| status := 200;
                body := EntriesJson (newEntry :: take 19 (DB.entries_of db userId)) |}, db').
Proof.
  intros Hauth Hauth' Hexists Hcontent Hnonempty (data & first & more & -> & Hdata & Hfirst)
         Hclock Hlimit Hoffset.
  rewrite (post_entries_fetch P env c now db userId (JStr content) content Hauth Hcontent);
    [|..|done].
  2:{ simpl. by apply negb_true_iff, String.eqb_neq. }
  simpl. unfold recommendation_of. simpl. rewrite Hdata. simpl. rewrite Hfirst. simpl.
  rewrite Hexists. simpl. eexists _, _, _. split; [done|].
  rewrite (get_entries_counts P env c' _ userId 20 0 Hauth').
  2:{ rewrite Hlimit. change (JS.or_string None "20") with "20". apply default_limit. }
  2:{ rewrite Hoffset. change (JS.or_string None "0") with "0". apply default_offset. }
  change (Z.to_nat 20) with 20%nat. change (Z.to_nat 0) with 0%nat.
  rewrite drop_0. do 3 f_equal.
  unfold DB.entries_of. simpl. rewrite filter_app, filter_cons, decide_True by done.
  rewrite filter_nil, orderBy_desc_newest; [done|].
  apply Forall_forall. intros entry [Hown Hin]%list_elem_of_filter.
  rewrite Forall_forall in Hclock. by apply Hclock.
Qed.

End EntriesEffects.

(** ** Users are only ever added *)

Section UsersKept.

Context (P : Platform) (env : Bindings).

Lemma handle_keeps_users route c now db :
  ends_with (fun r => users db `prefix_of` users r.2) (handle P env route c now db).
Proof.
  destruct route; simpl.
  - by constructor.
  - constructor.
    destruct (post_auth_login_cases P env c now db)
      as [[-> _] | (user & _ & _ & [-> | ->])]; [done..|].
    by apply prefix_app_r.
  - apply authMiddleware_ends_with; [done|]. intros userId.
    destruct (JS.get (json c) "content") as [[content|]|]; try by constructor.
    destruct (JS.truthy content); [|by constructor].
    unfold entries_try. destruct (JS.ToString _); [|by constructor].
    constructor. intros result. constructor.
    destruct (entries_after_fetch P userId content now db result)
      as [[response db']|] eqn:Hafter; simpl; [|done].
    unfold entries_after_fetch, DB.insert_userEntries in Hafter.
    destruct result as [|[] data]; try done.
    repeat (simplify_option_eq || case_match); done.
  - apply authMiddleware_ends_with; [done|]. intros userId.
    cbv zeta. destruct (page P _ _ _); by constructor.
  - apply authMiddleware_ends_with; [done|]. intros userId.
    cbv zeta. destruct (group_context _); [|by constructor].
    destruct (head (filter _ (users db))); by constructor.
  - apply authMiddleware_ends_with; [done|]. intros userId.
    destruct (json c) as [contextUpdates|]; [|by constructor]. cbv zeta.
    destruct (profile_insert P userId contextUpdates now (DB.delete_userContext db userId))
      as [db'|] eqn:Hinsert; constructor; simpl; [|done].
    by destruct (profile_insert_rows P _ _ _ _ _ Hinsert) as (-> & _).
  - by constructor.
Qed.

(** X15: no request removes or changes a stored user: whatever requests are
    served, the users stored before are still there afterwards, at their
    place and with the same id, email and name; users are only added. *)
Theorem users_never_removed (calls : list Call) (db : D1Database) :
  users db `prefix_of` users (serve_all P env calls db)
  ∧ ∀ i user, users db !! i = Some user → users (serve_all P env calls db) !! i = Some user.
Proof.
  assert (Hprefix : users db `prefix_of` users (serve_all P env calls db)).
  { revert db. induction calls as [|call calls IH]; intros db; simpl; [done|].
    etrans; [|apply IH].
    apply (ends_with_run (fun r => users db `prefix_of` users r.2) _ (network call)),
      handle_keeps_users. }
  split; [done|]. intros i user Hi. by eapply prefix_lookup_Some.
Qed.

End UsersKept.

(** ** The properties at work in the small world *)

Lemma demo_consistent : consistent Demo.db.
Proof. constructor; apply (bool_decide_unpack _); vm_compute; reflexivity. Qed.

Lemma reads_never_write_witness :
  reads GET_entries
  ∧ ∃ response,
      run [NetworkFailure] (handle Demo.platform Demo.env GET_entries Demo.get 140 Demo.db)
      = (response, Demo.db, []).
Proof.
  assert (Hreads : reads GET_entries) by (right; left; reflexivity).
  split; [exact Hreads|].
  exact (reads_never_write Demo.platform Demo.env GET_entries Demo.get 140 Demo.db
           [NetworkFailure] Hreads).
Defined.

Lemma schema_promises_kept_witness :
  consistent Demo.db
  ∧ consistent
      (serve_all Demo.platform Demo.env
         [ {| route := POST_auth_login; request := Demo.login "bob@example.org" (Some "Bob");
              clock := 150; network := [] |};
           {| route := PUT_profile; request := Demo.put Demo.mood_and_goal;
              clock := 160; network := [] |};
           {| route := POST_entries; request := Demo.post (JStr "I feel sad");
              clock := 170;
              network := [HttpResponse true (Some (Demo.completion "Take a walk"))] |} ]
         Demo.db).
Proof.
  split; [exact demo_consistent|].
  apply (schema_promises_kept Demo.platform Demo.env). exact demo_consistent.
Defined.

Lemma login_requires_email_witness :
  JS.get (json (Demo.request None [] (Some (JObj [("name", JStr "Bob")])))) "email" = Some None
  ∧ post_auth_login Demo.platform Demo.env
      (Demo.request None [] (Some (JObj [("name", JStr "Bob")]))) 150 Demo.db
    = (json_error "Email is required" 400, Demo.db).
Proof.
  split; [reflexivity|].
  apply (login_requires_email Demo.platform Demo.env
           (Demo.request None [] (Some (JObj [("name", JStr "Bob")]))) 150 Demo.db None);
    [reflexivity|].
  intros value [=].
Defined.

Lemma login_keeps_stored_name_witness :
  ∃ user, user ∈ users Demo.db
          ∧ schema.users.email user = "ada@example.org"
          ∧ post_auth_login Demo.platform Demo.env
              (Demo.login "ada@example.org" (Some "Augusta")) 150 Demo.db
            = (login_ok Demo.platform Demo.env user, Demo.db).
Proof.
  apply (login_keeps_stored_name Demo.platform Demo.env
           (Demo.login "ada@example.org" (Some "Augusta")) 150 Demo.db "ada@example.org").
  - reflexivity.
  - discriminate.
  - apply (bool_decide_unpack _). reflexivity.
Defined.

Lemma logins_distinct_witness : (2 ≠ 3)%Z.
Proof.
  apply (logins_distinct Demo.platform Demo.env
           (Demo.login "bob@example.org" (Some "Bob")) (Demo.login "eve@example.org" None)
           150 160 Demo.db
           "s3cret:2" 2 "bob@example.org" (Some "Bob")
           "s3cret:3" 3 "eve@example.org" None).
  - exact demo_consistent.
  - reflexivity.
  - reflexivity.
  - discriminate.
Defined.

Lemma login_then_profile_witness :
  ∃ context,
    get_profile Demo.platform Demo.env
      (Demo.request (Some "Bearer s3cret:2") [] None)
      (post_auth_login Demo.platform Demo.env (Demo.login "bob@example.org" (Some "Bob"))
         150 Demo.db).2
    = Ret ({| status := 200; body := ProfileJson 2 "bob@example.org" (Some "Bob") context |},
           (post_auth_login Demo.platform Demo.env (Demo.login "bob@example.org" (Some "Bob"))
              150 Demo.db).2)
    ∧ ∀ key, context !! key
             = nonempty (values_for key
                 (pairs_of (DB.context_of
                    (post_auth_login Demo.platform Demo.env
                       (Demo.login "bob@example.org" (Some "Bob")) 150 Demo.db).2 2))).
Proof.
  apply (login_then_profile Demo.platform Demo.env
           (Demo.login "bob@example.org" (Some "Bob"))
           (Demo.request (Some "Bearer s3cret:2") [] None) 150 Demo.db
           "s3cret:2" 2 "bob@example.org" (Some "Bob")).
  - exact demo_consistent.
  - reflexivity.
  - reflexivity.
  - reflexivity.
  - constructor.
Defined.

Lemma put_profile_touches_only_own_witness :
  ∃ response db',
    put_profile Demo.platform Demo.env (Demo.put (JObj [("mood", JArr [JNull])])) 140 Demo.db
    = Ret (response, db')
    ∧ users db' = users Demo.db
    ∧ userEntries db' = userEntries Demo.db
    ∧ ∀ other, other ≠ 1%Z → DB.context_of db' other = DB.context_of Demo.db other.
Proof.
  apply (put_profile_touches_only_own Demo.platform Demo.env
           (Demo.put (JObj [("mood", JArr [JNull])])) 140 Demo.db 1).
  apply demo_authenticated.
Defined.

Lemma put_profile_failure_loses_facts_witness :
  ∃ response db',
    put_profile Demo.platform Demo.env (Demo.put JNull) 140 Demo.db = Ret (response, db')
    ∧ (json (Demo.put JNull) = None → response = internal_server_error ∧ db' = Demo.db)
    ∧ (is_Some (json (Demo.put JNull)) →
       response = profile_updated
       ∨ (response = failed_update
          ∧ db' = DB.delete_userContext Demo.db 1
          ∧ DB.context_of db' 1 = []))
    ∧ (json (Demo.put JNull) = Some JNull → response = failed_update).
Proof.
  apply (put_profile_failure_loses_facts Demo.platform Demo.env (Demo.put JNull) 140 Demo.db 1).
  apply demo_authenticated.
Defined.

Lemma profile_last_update_wins_witness :
  ∃ db1 db2,
    put_profile Demo.platform Demo.env (Demo.put Demo.mood_and_goal) 140 Demo.db
    = Ret (profile_updated, db1)
    ∧ put_profile Demo.platform Demo.env (Demo.put (JObj [("pets", JNum (Number.int 2))])) 150 db1
      = Ret (profile_updated, db2)
    ∧ pairs_of (DB.context_of db1 1) = [("mood", "happy"); ("mood", "calm"); ("goal", "sleep")]
    ∧ pairs_of (DB.context_of db2 1) = [("pets", "2")].
Proof.
  apply (profile_last_update_wins Demo.platform Demo.env
           (Demo.put Demo.mood_and_goal) (Demo.put (JObj [("pets", JNum (Number.int 2))])) 140 150 Demo.db 1
           Demo.mood_and_goal
           [("mood", JArr [JStr "happy"; JStr "calm"]); ("goal", JStr "sleep")]
           [("mood", "happy"); ("mood", "calm"); ("goal", "sleep")]
           (JObj [("pets", JNum (Number.int 2))]) [("pets", JNum (Number.int 2))] [("pets", "2")]);
    first [apply demo_authenticated | reflexivity].
Defined.

Lemma profile_readable_iff_witness :
  ∃ response,
    get_profile Demo.platform Demo.env Demo.get Demo.db = Ret (response, Demo.db)
    ∧ (status response = 200%Z
       ↔ DB.user_exists Demo.db 1 = true
         ∧ Forall (fun fact => schema.userContext.contextKey fact ∉ Object_prototype)
                  (DB.context_of Demo.db 1))
    ∧ (status response ≠ 200%Z → response = failed_profile).
Proof.
  apply (profile_readable_iff Demo.platform Demo.env Demo.get Demo.db 1).
  apply demo_authenticated.
Defined.

Lemma unknown_user_pays_the_call_witness :
  DB.user_exists Demo.db 7 = false
  ∧ run [HttpResponse true (Some (Demo.completion "Take a walk"))]
        (post_entries Demo.platform Demo.env
           (Demo.request (Some "Bearer s3cret:7") [] (Some (JObj [("content", JStr "hello")])))
           140 Demo.db)
    = (json_error "Failed to generate recommendation" 500, Demo.db,
       [messages_request Demo.env
          (spec_prompt (DB.context_of Demo.db 7) (DB.entries_of Demo.db 7) "hello")]).
Proof.
  split; [reflexivity|].
  apply (unknown_user_pays_the_call Demo.platform Demo.env
           (Demo.request (Some "Bearer s3cret:7") [] (Some (JObj [("content", JStr "hello")])))
           140 Demo.db [] (HttpResponse true (Some (Demo.completion "Take a walk")))
           7 (JStr "hello") "hello").
  - by exists "s3cret:7".
  - reflexivity.
  - reflexivity.
  - reflexivity.
  - reflexivity.
Defined.

Lemma history_is_own_witness :
  ∃ rows,
    get_entries Demo.platform Demo.env
      (Demo.request Demo.bearer [("limit", "2")] None) Demo.db
    = Ret ({| status := 200; body := EntriesJson rows |}, Demo.db)
    ∧ Forall (fun entry => schema.userEntries.userId entry = 1%Z
                           ∧ entry ∈ userEntries Demo.db) rows.
Proof.
  apply (history_is_own Demo.platform Demo.env
           (Demo.request Demo.bearer [("limit", "2")] None) Demo.db 1 2 0).
  - apply demo_authenticated.
  - by vm_compute.
  - by vm_compute.
Defined.

Lemma new_entry_heads_history_witness :
  ∃ newEntry db' sent,
    run [HttpResponse true (Some (Demo.completion "Take a walk"))]
        (post_entries Demo.platform Demo.env (Demo.post (JStr "I feel sad")) 140 Demo.db)
    = ({| status := 200; body := EntryJson newEntry (Some (JStr "Take a walk")) |}, db', sent)
    ∧ get_entries Demo.platform Demo.env Demo.get db'
      = Ret ({| status := 200;
                body := EntriesJson (newEntry :: take 19 (DB.entries_of Demo.db 1)) |}, db').
Proof.
  apply (new_entry_heads_history Demo.platform Demo.env (Demo.post (JStr "I feel sad"))
           Demo.get 140 Demo.db [] 1 "I feel sad" (Demo.completion "Take a walk")
           "Take a walk").
  - apply demo_authenticated.
  - apply demo_authenticated.
  - reflexivity.
  - reflexivity.
  - discriminate.
  - apply demo_completion_text.
  - repeat constructor; simpl; lia.
  - reflexivity.
  - reflexivity.
Defined.

(** ** A submission is stored whole or not at all *)

Section Submission.

Context (P : Platform) (env : Bindings).

Lemma prefix_split (p s : string) :
  String.prefix p s = true → s = p +:+ substring_from (String.length p) s.
Proof.
  revert s. induction p as [|a p IH]; intros s; [done|].
  destruct s as [|b s]; [done|]. simpl.
  destruct (ascii_dec a b) as [<-|]; [|done].
  intros Hprefix. change (String a p +:+ ?t) with (String a (p +:+ t)).
  f_equal. by apply IH.
Qed.

Lemma entries_after_fetch_stores userId content now db aiResponse response db' :
  entries_after_fetch P userId content now db aiResponse = Some (response, db') →
  ∃ newEntry recommendation,
    response = {| status := 200; body := EntryJson newEntry recommendation |}
    ∧ schema.userEntries.userId newEntry = userId
    ∧ schema.userEntries.createdAt newEntry = now
    ∧ users db' = users db
    ∧ userContext db' = userContext db
    ∧ userEntries db' = (userEntries db ++ [newEntry])%list.
Proof.
  unfold entries_after_fetch. intros H.
  destruct aiResponse as [|[] data]; [done| |done].
  destruct data as [aiData|]; simpl in H; [|done].
  destruct (recommendation_of aiData) as [recommendation|]; simpl in H; [|done].
  destruct (bind P content) as [text|]; simpl in H; [|done].
  destruct (bind_opt P recommendation) as [reply|]; simpl in H; [|done].
  destruct (DB.insert_userEntries db userId text reply now) as [[entry db'']|] eqn:Hins;
    simpl in H; [|done].
  injection H as <- <-. exists entry, recommendation.
  unfold DB.insert_userEntries in Hins.
  destruct text as [text|]; [|done].
  destruct (DB.user_exists db userId); [|done].
  by injection Hins as <- <-.
Qed.

(** X16: every answer of [POST /entries] has status 200, 400, 401 or 500.
    With 200 goes exactly one new entry, of the caller and of this moment,
    appended to the stored entries, the one the answer shows, with users
    and context facts as they were; with any other status the database is
    what it was before the request.  Status 400 is only answered to empty
    content. *)
Theorem submission_all_or_nothing (c : Request) (now : Z) (db : D1Database)
    (net : list FetchResult) :
  let response := (run net (post_entries P env c now db)).1.1 in
  let db' := (run net (post_entries P env c now db)).1.2 in
  ((∃ newEntry recommendation userId,
      response = {| status := 200; body := EntryJson newEntry recommendation |}
      ∧ authenticated P env c userId
      ∧ schema.userEntries.userId newEntry = userId
      ∧ schema.userEntries.createdAt newEntry = now
      ∧ users db' = users db
      ∧ userContext db' = userContext db
      ∧ userEntries db' = (userEntries db ++ [newEntry])%list)
   ∨ ((status response = 400%Z ∨ status response = 401%Z ∨ status response = 500%Z)
      ∧ db' = db))
  ∧ (status response = 400%Z → content_empty c).
Proof.
  cbv zeta. split.
  - apply (ends_with_run
      (fun r => (∃ newEntry recommendation userId,
                   r.1 = {| status := 200; body := EntryJson newEntry recommendation |}
                   ∧ authenticated P env c userId
                   ∧ schema.userEntries.userId newEntry = userId
                   ∧ schema.userEntries.createdAt newEntry = now
                   ∧ users r.2 = users db
                   ∧ userContext r.2 = userContext db
                   ∧ userEntries r.2 = (userEntries db ++ [newEntry])%list)
                ∨ ((status r.1 = 400%Z ∨ status r.1 = 401%Z ∨ status r.1 = 500%Z)
                   ∧ r.2 = db))).
    unfold post_entries, authMiddleware.
    destruct (Authorization c) as [authHeader|] eqn:Hheader;
      [|constructor; simpl; auto].
    destruct (String.prefix "Bearer " authHeader) eqn:Hprefix;
      [|constructor; simpl; auto].
    destruct (verify P _ _) as [userId|] eqn:Hverify; [|constructor; simpl; auto].
    destruct (JS.get (json c) "content") as [[content|]|];
      [|constructor; simpl; auto..].
    destruct (JS.truthy content); [|constructor; simpl; auto].
    unfold entries_try. destruct (JS.ToString content); [|constructor; simpl; auto].
    constructor. intros result. constructor.
    destruct (entries_after_fetch P userId content now db result)
      as [[response db']|] eqn:Hafter; simpl; [|auto].
    destruct (entries_after_fetch_stores _ _ _ _ _ _ _ Hafter)
      as (newEntry & recommendation & -> & ? & ? & ? & ? & ?).
    left. exists newEntry, recommendation, userId. repeat split; try done.
    unfold authenticated. rewrite Hheader.
    exists (substring_from 7 authHeader). split; [|done]. f_equal.
    by apply (prefix_split "Bearer ").
  - intros Hstatus.
    pose proof (ends_with_run _ _ net (post_entries_status P env c now db)) as Hend.
    simpl in Hend. rewrite Hstatus in Hend.
    by destruct Hend as [[=] | [[=] | [[=] | [_ Hempty]]]].
Qed.

End Submission.

(** ** What belongs to a user changes only at that user's requests *)

Section Isolation.

Context (P : Platform) (env : Bindings).

(** The handler behind the middleware runs for the user the request is
    authenticated as, and for no one else. *)
Lemma authMiddleware_ends_auth {A} (Q : Response * A → Prop) (c : Request) (db : A) next :
  (∀ response, Q (response, db)) →
  (∀ userId, authenticated P env c userId → ends_with Q (next userId)) →
  ends_with Q (authMiddleware P env c db next).
Proof.
  intros Hrefused Hnext. unfold authMiddleware.
  destruct (Authorization c) as [authHeader|] eqn:Hheader; [|by constructor].
  destruct (String.prefix "Bearer " authHeader) eqn:Hprefix; [|by constructor].
  destruct (verify P _ _) as [userId|] eqn:Hverify; [|by constructor].
  apply Hnext. unfold authenticated. rewrite Hheader.
  exists (substring_from 7 authHeader). split; [|done]. f_equal.
  by apply (prefix_split "Bearer ").
Qed.

Lemma post_auth_login_tables c now db :
  userEntries (post_auth_login P env c now db).2 = userEntries db
  ∧ userContext (post_auth_login P env c now db).2 = userContext db.
Proof.
  unfold post_auth_login.
  destruct (JS.get (json c) "email") as [[email|]|], (JS.get (json c) "name") as [name|];
    simpl; try done.
  destruct (JS.truthy email); [|done].
  destruct (login_try P env email name now db) as [[response db']|] eqn:Htry; simpl; [|done].
  unfold login_try in Htry.
  destruct (bind P email) as [e|]; simpl in Htry; [|done].
  destruct (head _) as [user|]; simpl in Htry; [by simplify_eq|].
  destruct (bind P (or_null name)) as [n|]; simpl in Htry; [|done].
  unfold DB.insert_users in Htry. destruct e as [e|]; simpl in Htry; [|done].
  case_bool_decide; simpl in Htry; by simplify_eq.
Qed.

Lemma handle_isolated route c now db userId :
  ¬ authenticated P env c userId →
  ends_with (fun r => DB.entries_of r.2 userId = DB.entries_of db userId
                      ∧ DB.context_of r.2 userId = DB.context_of db userId)
            (handle P env route c now db).
Proof.
  intros Hother. destruct route; simpl.
  - by constructor.
  - constructor. unfold DB.entries_of, DB.context_of.
    by destruct (post_auth_login_tables c now db) as [-> ->].
  - apply authMiddleware_ends_auth; [done|]. intros actor Hactor.
    destruct (JS.get (json c) "content") as [[content|]|]; try by constructor.
    destruct (JS.truthy content); [|by constructor].
    unfold entries_try. destruct (JS.ToString _); [|by constructor].
    constructor. intros result. constructor.
    destruct (entries_after_fetch P actor content now db result)
      as [[response db']|] eqn:Hafter; simpl; [|done].
    destruct (entries_after_fetch_stores _ _ _ _ _ _ _ _ Hafter)
      as (newEntry & recommendation & _ & Hown & _ & _ & Hcontext & Hentries).
    unfold DB.entries_of, DB.context_of. rewrite Hcontext, Hentries. split; [|done].
    rewrite filter_app, filter_cons, decide_False, filter_nil, app_nil_r; [done|].
    intros Hsame. apply Hother. by rewrite <- Hsame, Hown.
  - apply authMiddleware_ends_with; [done|]. intros actor.
    cbv zeta. destruct (page P _ _ _); by constructor.
  - apply authMiddleware_ends_with; [done|]. intros actor.
    cbv zeta. destruct (group_context _); [|by constructor].
    destruct (head (filter _ (users db))); by constructor.
  - apply authMiddleware_ends_auth; [done|]. intros actor Hactor.
    assert (Hne : userId ≠ actor) by (intros ->; by apply Hother).
    destruct (json c) as [contextUpdates|]; [|by constructor]. cbv zeta.
    destruct (profile_insert P actor contextUpdates now (DB.delete_userContext db actor))
      as [db'|] eqn:Hinsert; constructor; simpl.
    + destruct (profile_insert_rows _ _ _ _ _ _ Hinsert) as (_ & Hentries & new & Hnew & Hown).
      unfold DB.entries_of, DB.context_of. rewrite Hentries, Hnew. simpl. split; [done|].
      rewrite filter_app, filter_other_same by done.
      rewrite (filter_foreign actor userId new) by done. by rewrite app_nil_r.
    + split; [done|]. unfold DB.context_of. simpl. by rewrite filter_other_same.
  - by constructor.
Qed.

(** X17: what is stored for a user, the entries and the context facts, is
    changed only by requests authenticated as that user: whatever other
    requests are served (logins, requests that carry no valid token, and
    the requests of other users), the user's history and facts are
    afterwards what they were. *)
Theorem others_cannot_touch (calls : list Call) (db : D1Database) (userId : Z) :
  Forall (fun call => ¬ authenticated P env (request call) userId) calls →
  DB.entries_of (serve_all P env calls db) userId = DB.entries_of db userId
  ∧ DB.context_of (serve_all P env calls db) userId = DB.context_of db userId.
Proof.
  intros Hcalls. revert db.
  induction Hcalls as [|call calls Hcall _ IH]; intros db; simpl; [done|].
  destruct (IH (serve P env call db).1.2) as [-> ->].
  apply (ends_with_run
           (fun r => DB.entries_of r.2 userId = DB.entries_of db userId
                     ∧ DB.context_of r.2 userId = DB.context_of db userId)
           _ (network call)).
  by apply handle_isolated.
Qed.

End Isolation.

(** ** Pages of the history *)

Section Paging.

Context (P : Platform) (env : Bindings).

(** X18: pages follow one another without gap or overlap: when a second
    request asks, with the same limit, for the offset the first page ended
    at (limits and offsets that read as counts), the two pages together are
    the stretch of the user's history of twice the limit from the first
    offset on; and a page that comes back shorter than the limit has reached
    the end of the history. *)
Theorem pages_follow (c c' : Request) (db : D1Database) userId (l o : Z) :
  authenticated P env c userId → authenticated P env c' userId →
  Number.count (JS.parseInt (JS.or_string (req_query c "limit") "20")) = Some l →
  Number.count (JS.parseInt (JS.or_string (req_query c' "limit") "20")) = Some l →
  Number.count (JS.parseInt (JS.or_string (req_query c "offset") "0")) = Some o →
  Number.count (JS.parseInt (JS.or_string (req_query c' "offset") "0")) = Some (o + l)%Z →
  ∃ rows rows',
    get_entries P env c db = Ret ({| status := 200; body := EntriesJson rows |}, db)
    ∧ get_entries P env c' db = Ret ({| status := 200; body := EntriesJson rows' |}, db)
    ∧ (rows ++ rows')%list
      = take (Z.to_nat (2 * l)) (drop (Z.to_nat o) (DB.entries_of db userId))
    ∧ ((length rows < Z.to_nat l)%nat → rows' = []).
Proof.
  intros Hauth Hauth' Hlimit Hlimit' Hoffset Hoffset'.
  pose proof (count_range _ _ Hlimit) as Hl.
  pose proof (count_range _ _ Hoffset) as Ho.
  eexists _, _.
  split; [by apply (get_entries_counts P env c db userId l o)|].
  split; [by apply (get_entries_counts P env c' db userId l (o + l))|].
  replace (Z.to_nat (o + l)) with (Z.to_nat o + Z.to_nat l)%nat by lia.
  replace (Z.to_nat (2 * l)) with (Z.to_nat l + Z.to_nat l)%nat by lia.
  rewrite <- drop_drop. split.
  - by rewrite take_take_drop.
  - rewrite length_take. intros Hshort.
    rewrite (drop_ge _ (Z.to_nat l)); [apply take_nil|lia].
Qed.

End Paging.

Lemma others_cannot_touch_witness :
  DB.entries_of
    (serve_all Demo.platform Demo.env
       [ {| route := POST_auth_login; request := Demo.login "bob@example.org" (Some "Bob");
            clock := 150; network := [] |};
         {| route := PUT_profile;
            request := Demo.request (Some "Bearer s3cret:2") [] (Some Demo.mood_and_goal);
            clock := 160; network := [] |};
         {| route := POST_entries;
            request := Demo.request (Some "Bearer s3cret:2") []
                         (Some (JObj [("content", JStr "I feel sad")]));
            clock := 170;
            network := [HttpResponse true (Some (Demo.completion "Take a walk"))] |} ]
       Demo.db) 1
  = DB.entries_of Demo.db 1
  ∧ DB.context_of
      (serve_all Demo.platform Demo.env
         [ {| route := POST_auth_login; request := Demo.login "bob@example.org" (Some "Bob");
              clock := 150; network := [] |};
           {| route := PUT_profile;
              request := Demo.request (Some "Bearer s3cret:2") [] (Some Demo.mood_and_goal);
              clock := 160; network := [] |};
           {| route := POST_entries;
              request := Demo.request (Some "Bearer s3cret:2") []
                           (Some (JObj [("content", JStr "I feel sad")]));
              clock := 170;
              network := [HttpResponse true (Some (Demo.completion "Take a walk"))] |} ]
         Demo.db) 1
    = DB.context_of Demo.db 1.
Proof.
  apply (others_cannot_touch Demo.platform Demo.env).
  repeat apply Forall_cons_2; try apply Forall_nil_2;
    simpl; intros (token & Hheader & Hverify);
    cbv [String.append] in Hheader;
    first [discriminate Hheader | injection Hheader as <-; discriminate Hverify].
Defined.

Lemma pages_follow_witness :
  ∃ rows rows',
    get_entries Demo.platform Demo.env
      (Demo.request Demo.bearer [("limit", "1"); ("offset", "1")] None) Demo.db
    = Ret ({| status := 200; body := EntriesJson rows |}, Demo.db)
    ∧ get_entries Demo.platform Demo.env
        (Demo.request Demo.bearer [("limit", "1"); ("offset", "2")] None) Demo.db
      = Ret ({| status := 200; body := EntriesJson rows' |}, Demo.db)
    ∧ (rows ++ rows')%list
      = take (Z.to_nat (2 * 1)) (drop (Z.to_nat 1) (DB.entries_of Demo.db 1))
    ∧ ((length rows < Z.to_nat 1)%nat → rows' = []).
Proof.
  apply (pages_follow Demo.platform Demo.env
           (Demo.request Demo.bearer [("limit", "1"); ("offset", "1")] None)
           (Demo.request Demo.bearer [("limit", "1"); ("offset", "2")] None) Demo.db 1 1 1);
    first [apply demo_authenticated | by vm_compute].
Defined.
